(** * Authenticated API client and practice-quiz grading

    A shallow embedding of the credential handling of the learning-companion
    front end (the identity-provider adapter of firebaseService.js, the
    axios instance [api] with its two interceptors, the [AuthProvider] of
    AuthContext.jsx, the [ProtectedRoute] of the application's route table)
    and of the grading computation of the dashboard's practice quiz
    ([handleQuizSubmit]).

    JavaScript strings are modelled by [string], one [ascii] per code unit
    (code units below 256, which covers bearer tokens and path names).
    Each asynchronous function is modelled as one sequential run of its
    body: an [await] is a call whose outcome, a value or an exception, is
    supplied by the environment (every awaited call settles);
    interleavings between different handlers are not modelled. *)

From Stdlib Require Import Ascii String QArith.
From stdpp Require Import gmap strings list pretty.

Local Open Scope string_scope.

(** ** JavaScript strings *)

Module JsString.

(** ECMAScript WhiteSpace and LineTerminator code units below 256:
    TAB, LF, VT, FF, CR, SP and NBSP. *)
Definition isWhiteSpace (c : ascii) : bool :=
  let n := nat_of_ascii c in
  (n =? 9)%nat || (n =? 10)%nat || (n =? 11)%nat || (n =? 12)%nat
  || (n =? 13)%nat || (n =? 32)%nat || (n =? 160)%nat.

Fixpoint trimStart (s : string) : string :=
  match s with
  | String c s' => if isWhiteSpace c then trimStart s' else s
  | EmptyString => EmptyString
  end.

Fixpoint trimEnd (s : string) : string :=
  match s with
  | EmptyString => EmptyString
  | String c s' =>
      match trimEnd s' with
      | EmptyString => if isWhiteSpace c then EmptyString else String c EmptyString
      | t => String c t
      end
  end.

(** [String.prototype.trim] *)
Definition trim (s : string) : string := trimEnd (trimStart s).

(** [String.prototype.charAt(0)]: the first code unit as a string, the
    empty string when there is none. *)
Definition charAt0 (s : string) : string :=
  match s with
  | String c _ => String c EmptyString
  | EmptyString => EmptyString
  end.

(** [s.includes(needle)] *)
Fixpoint includes (needle s : string) : bool :=
  String.prefix needle s
  || match s with
     | String _ s' => includes needle s'
     | EmptyString => false
     end.

(** Truthiness of a string value: every string but the empty one. *)
Definition truthy (s : string) : bool :=
  match s with EmptyString => false | String _ _ => true end.

(** Truthiness of [string | null]. *)
Definition truthy_opt (o : option string) : bool :=
  match o with Some s => truthy s | None => false end.

End JsString.

Import JsString.

(** ** Values exchanged with the collaborators *)

(** Body of a backend response: a flat JSON object. *)
Record Response := {
  status : nat;
  statusText : string;
  data : gmap string string
}.

(** An error value as the handlers inspect it: [error.code],
    [error.response] and [error.message]; an absent property is [None]. *)
Record JsError := {
  code : option string;
  response : option Response;
  message : option string
}.

(** Outcome of a call: it returns or it throws (an awaited promise
    fulfils or rejects). *)
Inductive result (A : Type) : Type :=
| Return (a : A)
| Throw (e : JsError).
Arguments Return {A} a.
Arguments Throw {A} e.

(** The principal snapshot held by the application. *)
Record User := { uid : string; email : string }.

(** A generated question: its options carry a label prefix such as
    [A) ...], and [correct_answer] starts with the label of the right one. *)
Module Question.
Record t := {
  text : string;
  options : list string;
  correct_answer : string;
  explanation : string
}.
End Question.

(** One entry of the per-question grading record; [selected_option] is
    [None] where JavaScript has [undefined]. *)
Module QuestionResult.
Record t := {
  question : string;
  selected_option : option string;
  correct_answer : string;
  is_correct : bool;
  explanation : string
}.
End QuestionResult.

(** A JavaScript number as far as the score needs it: the exact value of
    a quotient of two counts, or one of the two non-finite results of a
    division by zero. The rounding of a finite quotient to a double is not
    modelled. *)
Inductive jsnumber : Type :=
| Finite (q : Q)
| NaN
| Infinity.

(** The practice attempt posted to the backend. *)
Module Attempt.
Record t := {
  quiz_type : string;
  score : jsnumber;
  questions : list QuestionResult.t
}.
End Attempt.

Record RequestConfig := {
  url : string;
  method : string;
  headers : gmap string string;
  body : option Attempt.t
}.

(** ** The environment

    Everything outside the repository: the identity provider, the web
    storage fault behaviour, the HTTP transport and the clock. Each
    external call is answered as a function of the number of external
    calls made so far, so that two calls of the same operation may be
    answered differently. *)
Record Env := {
  (** the [user] property of the credential the provider answers with *)
  signInWithEmailAndPassword : string → string → nat → result (option User);
  createUserWithEmailAndPassword : string → string → nat → result (option User);
  updateProfile : option User → string → nat → result unit;
  signOut : nat → result unit;
  (** [user.getIdToken(forceRefresh)] *)
  getIdToken : User → bool → nat → result string;
  (** an access to [localStorage] may raise (storage blocked, quota) *)
  localStorage_fault : nat → option JsError;
  (** axios' transport with its status validation: a response with a
      success status, or the error axios rejects with *)
  axios_dispatch : RequestConfig → nat → result Response;
  Date_now : nat → nat
}.

(** ** Browser and application state *)

Inductive LogLevel := LevelLog | LevelWarn | LevelError.

Inductive LogArg :=
| ArgString (s : string)
| ArgOption (o : option string)
| ArgError (e : JsError)
| ArgData (d : gmap string string).

Record LogEntry := { level : LogLevel; args : list LogArg }.

Record World := {
  (** [window.localStorage] *)
  localStorage : gmap string string;
  (** [window.location.pathname] *)
  location_pathname : string;
  (** the values assigned to [window.location.href], latest first *)
  location_href_assigned : list string;
  console : list LogEntry;
  (** number of external calls made so far *)
  clock : nat;
  (** [auth.currentUser] *)
  auth_currentUser : option User;
  (** the two state cells of [AuthProvider] *)
  firebaseUser : option User;
  loading : bool
}.

Definition with_localStorage (f : gmap string string → gmap string string) (w : World) : World :=
  {| localStorage := f (localStorage w);
     location_pathname := location_pathname w;
     location_href_assigned := location_href_assigned w;
     console := console w;
     clock := clock w;
     auth_currentUser := auth_currentUser w;
     firebaseUser := firebaseUser w;
     loading := loading w |}.

Definition with_href (href : string) (w : World) : World :=
  {| localStorage := localStorage w;
     location_pathname := location_pathname w;
     location_href_assigned := href :: location_href_assigned w;
     console := console w;
     clock := clock w;
     auth_currentUser := auth_currentUser w;
     firebaseUser := firebaseUser w;
     loading := loading w |}.

Definition with_console (e : LogEntry) (w : World) : World :=
  {| localStorage := localStorage w;
     location_pathname := location_pathname w;
     location_href_assigned := location_href_assigned w;
     console := e :: console w;
     clock := clock w;
     auth_currentUser := auth_currentUser w;
     firebaseUser := firebaseUser w;
     loading := loading w |}.

Definition with_tick (w : World) : World :=
  {| localStorage := localStorage w;
     location_pathname := location_pathname w;
     location_href_assigned := location_href_assigned w;
     console := console w;
     clock := S (clock w);
     auth_currentUser := auth_currentUser w;
     firebaseUser := firebaseUser w;
     loading := loading w |}.

Definition with_firebaseUser (u : option User) (w : World) : World :=
  {| localStorage := localStorage w;
     location_pathname := location_pathname w;
     location_href_assigned := location_href_assigned w;
     console := console w;
     clock := clock w;
     auth_currentUser := auth_currentUser w;
     firebaseUser := u;
     loading := loading w |}.

Definition with_loading (b : bool) (w : World) : World :=
  {| localStorage := localStorage w;
     location_pathname := location_pathname w;
     location_href_assigned := location_href_assigned w;
     console := console w;
     clock := clock w;
     auth_currentUser := auth_currentUser w;
     firebaseUser := firebaseUser w;
     loading := b |}.

(** The Credential Store: the persisted slot of key [firebaseToken]. *)
Definition TOKEN_KEY : string := "firebaseToken".

Definition credential_store (w : World) : option string :=
  localStorage w !! TOKEN_KEY.

(** ** Computations with state and exceptions

    [M S A] is a computation over a state [S] that returns an [A] or
    throws. State changes made before a throw persist, as assignments made
    inside a [try] block do. *)

Definition M (S A : Type) : Type := S → result A * S.

#[global] Instance M_ret {S} : MRet (M S) := λ A a s, (Return a, s).

#[global] Instance M_bind {S} : MBind (M S) :=
  λ A B k m s, match m s with
               | (Return a, s') => k a s'
               | (Throw e, s') => (Throw e, s')
               end.

Definition throw {S A} (e : JsError) : M S A := λ s, (Throw e, s).

(** [try { m } catch (e) { h e }] *)
Definition try_catch {S A} (m : M S A) (h : JsError → M S A) : M S A :=
  λ s, match m s with
       | (Return a, s') => (Return a, s')
       | (Throw e, s') => h e s'
       end.

(** [try { m } finally { f }] for a [finally] block that does not itself
    return or throw a value of its own. *)
Definition try_finally {S A} (m : M S A) (f : M S unit) : M S A :=
  λ s, match m s with
       | (r, s') =>
           match f s' with
           | (Return _, s'') => (r, s'')
           | (Throw e, s'') => (Throw e, s'')
           end
       end.

Definition gets {S A} (f : S → A) : M S A := λ s, (Return (f s), s).

Definition modify {S} (f : S → S) : M S unit := λ s, (Return tt, f s).

(** Run a computation on the second component of a pair state. *)
Definition on_world {S A} (m : M World A) : M (S * World) A :=
  λ '(x, w), match m w with (r, w') => (r, (x, w')) end.

(** Run a computation on the first component of a pair state. *)
Definition on_local {S A} (m : M S A) : M (S * World) A :=
  λ '(x, w), match m x with (r, x') => (r, (x', w)) end.


(** Run a computation that mutates an object [x] allocated by the caller;
    the object itself is dropped at the end. *)
Definition with_object {S A} (x : S) (m : M (S * World) A) : M World A :=
  λ w, match m (x, w) with (r, (_, w')) => (r, w') end.

(** Settle a computation as a promise is settled by [then(onFulfilled,
    onRejected)]: a throw of [onFulfilled] is not seen by [onRejected]. *)
Definition promise_then {S A B} (m : M S A) (onFulfilled : A → M S B)
    (onRejected : JsError → M S B) : M S B :=
  λ s, match m s with
       | (Return a, s') => onFulfilled a s'
       | (Throw e, s') => onRejected e s'
       end.

(** Calling a method on [null]. *)
Definition TypeError_null (property : string) : JsError :=
  {| code := None;
     response := None;
     message := Some ("Cannot read properties of null (reading '" +:+ property +:+ "')") |}.

(** ** firebaseService.js, api.js and AuthContext.jsx *)

Section Program.

Variable env : Env.

(** An external call: answered by the environment at the current
    clock, which then advances. *)
Definition external {A} (answer : nat → result A) : M World A :=
  λ w, (answer (clock w), with_tick w).

Definition localStorage_access : M World unit :=
  external (λ t, match localStorage_fault env t with
                 | Some e => Throw e
                 | None => Return tt
                 end).

Definition localStorage_getItem (k : string) : M World (option string) :=
  localStorage_access;; gets (λ w, localStorage w !! k).

Definition localStorage_setItem (k v : string) : M World unit :=
  localStorage_access;; modify (with_localStorage (insert k v)).

Definition localStorage_removeItem (k : string) : M World unit :=
  localStorage_access;; modify (with_localStorage (delete k)).

Definition console_log (a : list LogArg) : M World unit :=
  modify (with_console {| level := LevelLog; args := a |}).

Definition console_warn (a : list LogArg) : M World unit :=
  modify (with_console {| level := LevelWarn; args := a |}).

Definition console_error (a : list LogArg) : M World unit :=
  modify (with_console {| level := LevelError; args := a |}).

(** [user.getIdToken(forceRefresh)] on a value that may be [null]. *)
Definition user_getIdToken (user : option User) (forceRefresh : bool) : M World string :=
  match user with
  | Some u => external (getIdToken env u forceRefresh)
  | None => throw (TypeError_null "getIdToken")
  end.

(** *** firebaseService.js *)

Definition registerWithEmailPassword (email password displayName : string)
    : M World (option User) :=
  try_catch
    (user ← external (createUserWithEmailAndPassword env email password);
     (if truthy displayName
      then external (updateProfile env user displayName)
      else mret tt);;
     try_catch
       (idToken ← user_getIdToken user true;
        localStorage_setItem TOKEN_KEY idToken)
       (λ tokenError,
          console_error [ArgString "Error getting token after registration:";
                         ArgError tokenError]);;
     mret user)
    (λ error,
       console_error [ArgString "Firebase registration error:"; ArgError error];;
       throw error).

Definition loginWithEmailPassword (email password : string) : M World (option User) :=
  try_catch
    (user ← external (signInWithEmailAndPassword env email password);
     try_catch
       (idToken ← user_getIdToken user true;
        localStorage_setItem TOKEN_KEY idToken)
       (λ tokenError,
          console_error [ArgString "Error getting token after login:";
                         ArgError tokenError]);;
     mret user)
    (λ error,
       console_error [ArgString "Firebase login error:";
                      ArgOption (code error); ArgOption (message error)];;
       throw error).

Definition logoutFirebase : M World bool :=
  try_catch
    (external (signOut env);;
     localStorage_removeItem TOKEN_KEY;;
     mret true)
    (λ error,
       console_error [ArgString "Firebase logout error:"; ArgError error];;
       throw error).

(** *** api.js: the request interceptor *)

(** [config.headers['Authorization'] = v]: the configuration object is
    mutated in place, so the assignment survives a later throw. *)
Definition set_Authorization (v : string) : M (RequestConfig * World) unit :=
  on_local (modify (λ c, {| url := url c;
                            method := method c;
                            headers := <["Authorization" := v]> (headers c);
                            body := body c |})).

Definition attach_cached_token : M (RequestConfig * World) unit :=
  cachedToken ← on_world (localStorage_getItem TOKEN_KEY);
  match cachedToken with
  | Some t => if truthy t then set_Authorization ("Bearer " +:+ trim t) else mret tt
  | None => mret tt
  end.

(** The [try]/[catch] statement of the request interceptor. *)
Definition request_attach_token : M (RequestConfig * World) unit :=
  try_catch
    (currentUser ← on_world (gets auth_currentUser);
     match currentUser with
     | Some u =>
         try_catch
           (token ← on_world (external (getIdToken env u true));
            set_Authorization ("Bearer " +:+ trim token);;
            on_world (localStorage_setItem TOKEN_KEY token))
           (λ tokenError,
              on_world (console_error
                          [ArgString "Error getting fresh Firebase token:";
                           ArgError tokenError]);;
              attach_cached_token)
     | None => attach_cached_token
     end)
    (λ error,
       on_world (console_warn [ArgString "Error setting auth token on request:";
                               ArgError error])).

Definition request_onFulfilled (config : RequestConfig) : M World RequestConfig :=
  with_object config
    (request_attach_token;;
     on_local (gets id)).

Definition request_onRejected (error : JsError) : M World RequestConfig :=
  console_error [ArgString "Request interceptor error:"; ArgError error];;
  throw error.

(** *** api.js: the response interceptor *)

Definition response_onFulfilled (response : Response) : M World Response :=
  mret response.

Definition response_onRejected (error : JsError) : M World Response :=
  (if bool_decide (code error = Some "ECONNABORTED") then
     console_error [ArgString "Request timeout - API server may be down or unreachable"]
   else
     match response error with
     | Some r =>
         console_error [ArgString ("API Error: " +:+ pretty (status r) +:+ " - "
                                   +:+ statusText r)];;
         if bool_decide (status r = 401) then
           localStorage_removeItem TOKEN_KEY;;
           pathname ← gets location_pathname;
           if negb (includes "/login" pathname)
           then modify (with_href "/login")
           else mret tt
         else mret tt
     | None =>
         match message error with
         | Some m =>
             if truthy m then
               if includes "Network Error" m
               then console_error [ArgString ("CORS or Network Error: " +:+ m)]
               else console_error [ArgString ("API request error: " +:+ m)]
             else mret tt
         | None => mret tt
         end
     end);;
  throw error.

(** A request through the [api] instance: the request interceptor, the
    transport, then the response interceptor. *)
Definition api_request (config : RequestConfig) : M World Response :=
  promise_then
    (config' ← request_onFulfilled config;
     external (axios_dispatch env config'))
    response_onFulfilled
    response_onRejected.

Definition default_headers : gmap string string :=
  {["Content-Type" := "application/json"]}.

Definition api_get (path : string) : M World Response :=
  api_request {| url := path; method := "get"; headers := default_headers; body := None |}.

Definition api_post (path : string) (payload : Attempt.t) : M World Response :=
  api_request {| url := path; method := "post"; headers := default_headers;
                 body := Some payload |}.

(** *** AuthContext.jsx *)

Definition login (email password : string) : M World bool :=
  try_catch
    (console_log [ArgString ("AuthContext: Login attempt with email: " +:+ email)];;
     user ← loginWithEmailPassword email password;
     match user with
     | Some u =>
         console_log [ArgString "AuthContext: Firebase login successful, getting token"];;
         try_catch
           (idToken ← external (getIdToken env u true);
            localStorage_setItem TOKEN_KEY idToken;;
            console_log [ArgString "AuthContext: Token stored successfully"];;
            mret true)
           (λ tokenError,
              console_error [ArgString "AuthContext: Error getting Firebase token:";
                             ArgError tokenError];;
              throw tokenError)
     | None => mret false
     end)
    (λ error,
       console_error [ArgString "AuthContext: Firebase login error:"; ArgError error];;
       throw error).

(** In [register] the inner [try] block either returns ([Some b]) or,
    after its [catch], falls through to the final [return false]
    ([None]). *)
Definition register (email password displayName : string) : M World bool :=
  try_catch
    (console_log [ArgString ("AuthContext: Registration attempt for email: " +:+ email)];;
     user ← registerWithEmailPassword email password displayName;
     match user with
     | Some u =>
         console_log [ArgString "AuthContext: Registration successful, getting token"];;
         returned ←
           try_catch
             (idToken ← external (getIdToken env u false);
              localStorage_setItem TOKEN_KEY idToken;;
              mret (Some true))
             (λ tokenError,
                console_error
                  [ArgString "AuthContext: Error getting token after registration:";
                   ArgError tokenError];;
                mret None);
         match returned with
         | Some b => mret b
         | None => mret false
         end
     | None => mret false
     end)
    (λ error,
       console_error [ArgString "AuthContext: Registration error:"; ArgError error];;
       throw error).

Definition logout : M World bool :=
  try_catch
    (console_log [ArgString "AuthContext: Logout attempt"];;
     logoutFirebase;;
     localStorage_removeItem TOKEN_KEY;;
     console_log [ArgString "AuthContext: Logout successful"];;
     mret true)
    (λ error,
       console_error [ArgString "AuthContext: Firebase logout error:"; ArgError error];;
       mret false).

Definition describe_user (user : option User) : string :=
  match user with
  | Some u => email u +:+ " (" +:+ uid u +:+ ")"
  | None => "null"
  end.

(** The callback registered with [onAuthStateChanged]. *)
Definition onAuthStateChanged_next (user : option User) : M World unit :=
  console_log [ArgString "AuthContext: Auth state changed, user:";
               ArgString (describe_user user)];;
  modify (with_firebaseUser user);;
  match user with
  | Some u =>
      try_catch
        (console_log [ArgString "AuthContext: Getting fresh token"];;
         idToken ← external (getIdToken env u true);
         localStorage_setItem TOKEN_KEY idToken;;
         console_log [ArgString "AuthContext: Fresh token stored"];;
         try_catch
           (response ← api_get "/users/me";
            console_log [ArgString "AuthContext: API verification successful";
                         ArgData (data response)])
           (λ apiError,
              console_error [ArgString "AuthContext: API verification failed:";
                             ArgError apiError]))
        (λ error,
           console_error [ArgString "AuthContext: Error getting fresh token:";
                          ArgError error])
  | None =>
      localStorage_removeItem TOKEN_KEY;;
      console_log [ArgString "AuthContext: Removed token from storage"]
  end;;
  modify (with_loading false).

(** The error callback registered with [onAuthStateChanged]. *)
Definition onAuthStateChanged_error (error : JsError) : M World unit :=
  console_error [ArgString "AuthContext: Auth state change error:"; ArgError error];;
  modify (with_loading false).

End Program.

(** ** App.jsx: the protected-route gate *)

(** What a component renders, as far as the gate is concerned. *)
Inductive Element :=
| Navigate (to : string) (replace : bool)
| LoadingIndicator
| Page (name : string)
| Nothing.

(** The fields of the context value that [ProtectedRoute] reads. *)
Record AuthContextValue := {
  currentUser : option User;
  isAuthenticated : bool
}.

(** [value] of [AuthProvider]: [isAuthenticated] is [!!firebaseUser]. *)
Definition AuthProvider_value (w : World) : AuthContextValue :=
  {| currentUser := firebaseUser w;
     isAuthenticated := match firebaseUser w with Some _ => true | None => false end |}.

(** [{!loading && children}]: while [loading] holds the provider renders
    [false], that is, nothing. *)
Definition AuthProvider (w : World) (children : AuthContextValue → Element) : Element :=
  if negb (loading w) then children (AuthProvider_value w) else Nothing.

Definition ProtectedRoute (children : Element) (value : AuthContextValue) : Element :=
  if negb (isAuthenticated value) then Navigate "/login" true
  else match currentUser value with
       | None => LoadingIndicator
       | Some _ => children
       end.

(** A protected route as it is mounted: below the provider. *)
Definition protected_route (w : World) (page : Element) : Element :=
  AuthProvider w (ProtectedRoute page).

(** The session state derived from the provider's two cells: [loading]
    is [true] from the start until the first notification has been
    handled. *)
Inductive SessionState := unknown | authenticated | unauthenticated.

Definition sessionState (w : World) : SessionState :=
  if loading w then unknown
  else match firebaseUser w with
       | Some _ => authenticated
       | None => unauthenticated
       end.

(** ** Dashboard.jsx: the practice quiz *)

Inductive GeneratedContent :=
| ContentQuestions (data : list Question.t)
| ContentFlashcards
| ContentExplanation.

(** [a / b] for two counts. *)
Definition js_div (a b : nat) : jsnumber :=
  match b with
  | O => match a with O => NaN | S _ => Infinity end
  | S _ => Finite (Z.of_nat a # Pos.of_nat b)
  end.

(** The callback of [generatedContent.data.map] together with the counter
    [correctAnswers] it increments; [index] is the position of the head of
    [data]. *)
Fixpoint grade_map (selectedAnswers : gmap nat string) (index correctAnswers : nat)
    (data : list Question.t) : nat * list QuestionResult.t :=
  match data with
  | [] => (correctAnswers, [])
  | question :: rest =>
      let isCorrect :=
        bool_decide (selectedAnswers !! index
                     = Some (charAt0 (Question.correct_answer question))) in
      let correctAnswers := if isCorrect then S correctAnswers else correctAnswers in
      let entry :=
        {| QuestionResult.question := Question.text question;
           QuestionResult.selected_option := selectedAnswers !! index;
           QuestionResult.correct_answer := charAt0 (Question.correct_answer question);
           QuestionResult.is_correct := isCorrect;
           QuestionResult.explanation := Question.explanation question |} in
      let '(correctAnswers, results) := grade_map selectedAnswers (S index) correctAnswers rest in
      (correctAnswers, entry :: results)
  end.

(** The grading computation of [handleQuizSubmit]: from the question set
    and the answer record to the attempt that is posted. *)
Definition grade (data : list Question.t) (selectedAnswers : gmap nat string) : Attempt.t :=
  let totalQuestions := length data in
  let '(correctAnswers, results) := grade_map selectedAnswers 0 0 data in
  let score := js_div correctAnswers totalQuestions in
  {| Attempt.quiz_type := "practice";
     Attempt.score := score;
     Attempt.questions := results |}.

Module QuizResults.
Record t := {
  id : option string;
  score : jsnumber;
  questions : list QuestionResult.t
}.
End QuizResults.

Module RecentQuiz.
Record t := {
  id : option string;
  quiz_id : string;
  score : jsnumber
}.
End RecentQuiz.

(** The state cells of [Dashboard] that [handleQuizSubmit] reads or writes. *)
Record Dashboard := {
  isSubmittingQuiz : bool;
  generatedContent : option GeneratedContent;
  selectedAnswers : gmap nat string;
  quizSubmitted : bool;
  quizResults : option QuizResults.t;
  recentQuizzes : list RecentQuiz.t;
  error : string
}.

Definition setIsSubmittingQuiz (b : bool) (d : Dashboard) : Dashboard :=
  {| isSubmittingQuiz := b;
     generatedContent := generatedContent d;
     selectedAnswers := selectedAnswers d;
     quizSubmitted := quizSubmitted d;
     quizResults := quizResults d;
     recentQuizzes := recentQuizzes d;
     error := error d |}.

Definition setQuizSubmitted (b : bool) (d : Dashboard) : Dashboard :=
  {| isSubmittingQuiz := isSubmittingQuiz d;
     generatedContent := generatedContent d;
     selectedAnswers := selectedAnswers d;
     quizSubmitted := b;
     quizResults := quizResults d;
     recentQuizzes := recentQuizzes d;
     error := error d |}.

Definition setQuizResults (r : option QuizResults.t) (d : Dashboard) : Dashboard :=
  {| isSubmittingQuiz := isSubmittingQuiz d;
     generatedContent := generatedContent d;
     selectedAnswers := selectedAnswers d;
     quizSubmitted := quizSubmitted d;
     quizResults := r;
     recentQuizzes := recentQuizzes d;
     error := error d |}.

Definition setRecentQuizzes (f : list RecentQuiz.t → list RecentQuiz.t) (d : Dashboard) : Dashboard :=
  {| isSubmittingQuiz := isSubmittingQuiz d;
     generatedContent := generatedContent d;
     selectedAnswers := selectedAnswers d;
     quizSubmitted := quizSubmitted d;
     quizResults := quizResults d;
     recentQuizzes := f (recentQuizzes d);
     error := error d |}.

Definition setError (msg : string) (d : Dashboard) : Dashboard :=
  {| isSubmittingQuiz := isSubmittingQuiz d;
     generatedContent := generatedContent d;
     selectedAnswers := selectedAnswers d;
     quizSubmitted := quizSubmitted d;
     quizResults := quizResults d;
     recentQuizzes := recentQuizzes d;
     error := msg |}.

Section Quiz.

Variable env : Env.

(** The values of the state cells are those of the render in which the
    handler was created: [d] is read once, at the start. *)
Definition handleQuizSubmit : M (Dashboard * World) unit :=
  d ← on_local (gets id);
  match isSubmittingQuiz d, generatedContent d with
  | false, Some (ContentQuestions quiz) =>
      on_local (modify (setIsSubmittingQuiz true));;
      try_finally
        (try_catch
           (let attemptData := grade quiz (selectedAnswers d) in
            let score := Attempt.score attemptData in
            let results := Attempt.questions attemptData in
            response ← on_world (api_post env "/quizzes/practice/attempt" attemptData);
            let attempt_id := data response !! "attempt_id" in
            on_local (modify (setQuizResults
                                (Some {| QuizResults.id := attempt_id;
                                         QuizResults.score := score;
                                         QuizResults.questions := results |})));;
            on_local (modify (setQuizSubmitted true));;
            now ← on_world (external (λ t, Return (Date_now env t)));
            on_local (modify (setRecentQuizzes
                                (λ prev, {| RecentQuiz.id := attempt_id;
                                            RecentQuiz.quiz_id := "practice-" +:+ pretty now;
                                            RecentQuiz.score := score |}
                                           :: take 4 prev))))
           (λ err,
              on_world (console_error [ArgString "Error submitting quiz:"; ArgError err]);;
              on_local (modify (setError "Failed to submit quiz. Please try again."))))
        (on_local (modify (setIsSubmittingQuiz false)))
  | _, _ => mret tt
  end.

End Quiz.

(** ** Vocabulary of the properties *)

(** What the answer record says about position [i] of the set, stated
    without the loop: the selection there is the label of [q]. *)
Definition answered_correctly (answers : gmap nat string) (i : nat) (q : Question.t) : bool :=
  bool_decide (answers !! i = Some (charAt0 (Question.correct_answer q))).

(** The number of correctly answered questions. *)
Definition count_correct (data : list Question.t) (answers : gmap nat string) : nat :=
  length (filter Is_true (imap (answered_correctly answers) data)).

(** The entry expected at position [i]. *)
Definition entry_at (answers : gmap nat string) (i : nat) (q : Question.t) : QuestionResult.t :=
  {| QuestionResult.question := Question.text q;
     QuestionResult.selected_option := answers !! i;
     QuestionResult.correct_answer := charAt0 (Question.correct_answer q);
     QuestionResult.is_correct := answered_correctly answers i q;
     QuestionResult.explanation := Question.explanation q |}.


(** No access to web storage raises. *)
Definition storage_reliable (env : Env) : Prop :=
  ∀ t, localStorage_fault env t = None.

(** No fresh credential can be had for the request that starts in [w]:
    no principal is known, or the mint fails. *)
Definition mint_unavailable (env : Env) (w : World) : Prop :=
  match auth_currentUser w with
  | Some u => ∃ e, getIdToken env u true (clock w) = Throw e
  | None => True
  end.

(** Two request configurations that differ at most in the Authorization
    header. *)
Definition same_request_but_Authorization (c c' : RequestConfig) : Prop :=
  url c' = url c
  ∧ method c' = method c
  ∧ body c' = body c
  ∧ ∀ k, k ≠ "Authorization" → headers c' !! k = headers c !! k.

(** The request interceptor works on the pair of the configuration object
    and the world; the relation below looks at the configuration only. *)
Definition config_frame (s s' : RequestConfig * World) : Prop :=
  same_request_but_Authorization (fst s) (fst s').

(** The cells of [AuthProvider] are written by its own handlers only. *)
Definition provider_frame (w w' : World) : Prop :=
  firebaseUser w' = firebaseUser w ∧ loading w' = loading w.

(** A computation that returns on every state. *)
Definition never_throws {S A} (m : M S A) : Prop :=
  ∀ s, ∃ a s', m s = (Return a, s').

(** A computation whose every run, returning or throwing, relates the
    state it starts in to the state it ends in. *)
Definition preserves {S A} (R : S → S → Prop) (m : M S A) : Prop :=
  ∀ s r s', m s = (r, s') → R s s'.

(** ** Sample collaborators and states *)

Module Sample.

Definition alice : User := {| uid := "u1"; email := "alice@example.com" |}.

Definition network_failed : JsError :=
  {| code := Some "auth/network-request-failed";
     response := None;
     message := Some "Firebase: Error (auth/network-request-failed)." |}.

Definition ok_response : Response :=
  {| status := 200; statusText := "OK"; data := {["attempt_id" := "a1"]} |}.

(** Every collaborator answers successfully. *)
Definition env_ok : Env :=
  {| signInWithEmailAndPassword := λ _ _ _, Return (Some alice);
     createUserWithEmailAndPassword := λ _ _ _, Return (Some alice);
     updateProfile := λ _ _ _, Return tt;
     signOut := λ _, Return tt;
     getIdToken := λ _ _ _, Return "fresh.jwt";
     localStorage_fault := λ _, None;
     axios_dispatch := λ _ _, Return ok_response;
     Date_now := λ t, t |}.

(** The remote sign-out is unreachable. *)
Definition env_signOut_fails : Env :=
  {| signInWithEmailAndPassword := λ _ _ _, Return (Some alice);
     createUserWithEmailAndPassword := λ _ _ _, Return (Some alice);
     updateProfile := λ _ _ _, Return tt;
     signOut := λ _, Throw network_failed;
     getIdToken := λ _ _ _, Return "fresh.jwt";
     localStorage_fault := λ _, None;
     axios_dispatch := λ _ _, Return ok_response;
     Date_now := λ t, t |}.

(** Sign-in and sign-up succeed, every mint fails. *)
Definition env_mint_fails : Env :=
  {| signInWithEmailAndPassword := λ _ _ _, Return (Some alice);
     createUserWithEmailAndPassword := λ _ _ _, Return (Some alice);
     updateProfile := λ _ _ _, Return tt;
     signOut := λ _, Return tt;
     getIdToken := λ _ _ _, Throw network_failed;
     localStorage_fault := λ _, None;
     axios_dispatch := λ _ _, Return ok_response;
     Date_now := λ t, t |}.

(** Every mint fails and every access to web storage raises. *)
Definition env_hostile : Env :=
  {| signInWithEmailAndPassword := λ _ _ _, Throw network_failed;
     createUserWithEmailAndPassword := λ _ _ _, Throw network_failed;
     updateProfile := λ _ _ _, Throw network_failed;
     signOut := λ _, Throw network_failed;
     getIdToken := λ _ _ _, Throw network_failed;
     localStorage_fault := λ _,
       Some {| code := None; response := None;
               message := Some "SecurityError: The operation is insecure." |};
     axios_dispatch := λ _ _, Throw network_failed;
     Date_now := λ t, t |}.

(** The provider answers forced refreshes only. *)
Definition env_forced_only : Env :=
  {| signInWithEmailAndPassword := λ _ _ _, Return (Some alice);
     createUserWithEmailAndPassword := λ _ _ _, Return (Some alice);
     updateProfile := λ _ _ _, Return tt;
     signOut := λ _, Return tt;
     getIdToken := λ _ forceRefresh _,
       if forceRefresh then Return "fresh.jwt" else Throw network_failed;
     localStorage_fault := λ _, None;
     axios_dispatch := λ _ _, Return ok_response;
     Date_now := λ t, t |}.

(** A signed-in browser tab on the dashboard, holding an older token. *)
Definition world_signed_in : World :=
  {| localStorage := {[TOKEN_KEY := "  stale.jwt "]};
     location_pathname := "/";
     location_href_assigned := [];
     console := [];
     clock := 0;
     auth_currentUser := Some alice;
     firebaseUser := Some alice;
     loading := false |}.

(** The same tab at another location. *)
Definition world_at (pathname : string) : World :=
  {| localStorage := {[TOKEN_KEY := "  stale.jwt "]};
     location_pathname := pathname;
     location_href_assigned := [];
     console := [];
     clock := 0;
     auth_currentUser := Some alice;
     firebaseUser := Some alice;
     loading := false |}.

(** The error axios rejects with when the backend answers 401. *)
Definition unauthorized : JsError :=
  {| code := Some "ERR_BAD_REQUEST";
     response := Some {| status := 401; statusText := "Unauthorized"; data := ∅ |};
     message := Some "Request failed with status code 401" |}.

(** The configuration of [api.get('/users/me')]. *)
Definition get_users_me : RequestConfig :=
  {| url := "/users/me";
     method := "get";
     headers := {["Content-Type" := "application/json"]};
     body := None |}.

(** The application right after start: no notification handled yet. *)
Definition world_starting : World :=
  {| localStorage := ∅;
     location_pathname := "/";
     location_href_assigned := [];
     console := [];
     clock := 0;
     auth_currentUser := None;
     firebaseUser := None;
     loading := true |}.

(** The scenario of three questions with correct labels A, B and C,
    answered A, A and C. *)
Definition three_questions : list Question.t :=
  [ {| Question.text := "Q1"; Question.options := ["A) x"; "B) y"];
       Question.correct_answer := "A"; Question.explanation := "" |};
    {| Question.text := "Q2"; Question.options := ["A) x"; "B) y"];
       Question.correct_answer := "B) y"; Question.explanation := "" |};
    {| Question.text := "Q3"; Question.options := ["A) x"; "C) z"];
       Question.correct_answer := "C"; Question.explanation := "" |} ].

Definition three_answers : gmap nat string :=
  {[0%nat := "A"; 1%nat := "A"; 2%nat := "C"]}.

(** A dashboard showing a generated question set. *)
Definition dashboard_with (quiz : list Question.t) (answers : gmap nat string) : Dashboard :=
  {| isSubmittingQuiz := false;
     generatedContent := Some (ContentQuestions quiz);
     selectedAnswers := answers;
     quizSubmitted := false;
     quizResults := None;
     recentQuizzes := [];
     error := "" |}.

End Sample.

(** * The rest of the front end *)

(** ** More of firebaseService.js *)

Section Adapter.

Variable env : Env.

(** [getFreshIdToken] *)
Definition getFreshIdToken : M World (option string) :=
  currentUser ← gets auth_currentUser;
  match currentUser with
  | Some u =>
      try_catch
        (token ← external (getIdToken env u true);
         localStorage_setItem env TOKEN_KEY token;;
         mret (Some token))
        (λ error,
           console_error [ArgString "Error getting fresh token:"; ArgError error];;
           mret None)
  | None => mret None
  end.

End Adapter.

(** ** The notification stream of the identity provider

    What [onAuthStateChanged] delivers to the two callbacks registered by
    [AuthProvider], one event after the other. A callback that throws
    leaves the state it has reached (its promise is rejected, nobody
    awaits it). *)

Inductive AuthEvent :=
| PrincipalChanged (user : option User)
| ObserverError (e : JsError).

Definition handle_event (env : Env) (ev : AuthEvent) : M World unit :=
  match ev with
  | PrincipalChanged user => onAuthStateChanged_next env user
  | ObserverError e => onAuthStateChanged_error e
  end.

Fixpoint deliver (env : Env) (events : list AuthEvent) (w : World) : World :=
  match events with
  | [] => w
  | ev :: rest => deliver env rest (snd (handle_event env ev w))
  end.

(** ** More of the dashboard's practice quiz *)

Definition setSelectedAnswers (f : gmap nat string → gmap nat string) (d : Dashboard) : Dashboard :=
  {| isSubmittingQuiz := isSubmittingQuiz d;
     generatedContent := generatedContent d;
     selectedAnswers := f (selectedAnswers d);
     quizSubmitted := quizSubmitted d;
     quizResults := quizResults d;
     recentQuizzes := recentQuizzes d;
     error := error d |}.

(** [handleAnswerSelect]: the letter of the option is stored, and nothing
    changes once the quiz is submitted. *)
Definition handleAnswerSelect (questionIndex : nat) (option : string) (d : Dashboard) : Dashboard :=
  if quizSubmitted d then d
  else setSelectedAnswers (λ prev, <[questionIndex := charAt0 option]> prev) d.

(** [handleTryAgain] *)
Definition handleTryAgain (d : Dashboard) : Dashboard :=
  setQuizResults None (setQuizSubmitted false (setSelectedAnswers (λ _, ∅) d)).

(** The [disabled] attribute of the submit button:
    [Object.keys(selectedAnswers).length < generatedContent.data.length
     || isSubmittingQuiz]. *)
Definition submit_disabled (d : Dashboard) (data : list Question.t) : bool :=
  (size (selectedAnswers d) <? length data)%nat || isSubmittingQuiz d.

(** The text shown for an option:
    [option.substring(option.indexOf(')') + 1).trim()]. *)
Fixpoint after_first (c : ascii) (s : string) : option string :=
  match s with
  | EmptyString => None
  | String a s' => if Ascii.eqb a c then Some s' else after_first c s'
  end.

Definition option_text (option : string) : string :=
  match after_first ")" option with
  | Some rest => trim rest
  | None => trim option
  end.

(** ** Answer and option clean-up (quiz results, quiz attempt, content
       generator) *)

Module Clean.

(** [[A-Za-z0-9]] *)
Definition isAlnum (c : ascii) : bool :=
  let n := nat_of_ascii c in
  ((48 <=? n) && (n <=? 57) || (65 <=? n) && (n <=? 90) || (97 <=? n) && (n <=? 122))%nat.

(** [[\s\)\.\:\-]], the class of [formatAnswer]; [\s] matches the code
    units that [trim] strips. *)
Definition isSeparator (c : ascii) : bool :=
  let n := nat_of_ascii c in
  isWhiteSpace c || (n =? 41)%nat || (n =? 46)%nat || (n =? 58)%nat || (n =? 45)%nat.

(** [[)\.:\-]], the class of [cleanOptionText]. *)
Definition isDelimiter (c : ascii) : bool :=
  let n := nat_of_ascii c in
  (n =? 41)%nat || (n =? 46)%nat || (n =? 58)%nat || (n =? 45)%nat.

(** The longest prefix matched by [p*] is removed. *)
Fixpoint dropWhile (p : ascii → bool) (s : string) : string :=
  match s with
  | String c s' => if p c then dropWhile p s' else s
  | EmptyString => EmptyString
  end.

(** [answer.replace(/^[A-Za-z0-9][\s\)\.\:\-]+\s*/, '')]: one letter or
    digit, then separators (at least one), then white space; when the
    pattern does not match, the string is left as it is. *)
Definition strip_answer_label (answer : string) : string :=
  match answer with
  | String c (String d rest) =>
      if isAlnum c && isSeparator d
      then dropWhile isWhiteSpace (dropWhile isSeparator rest)
      else answer
  | _ => answer
  end.

(** [formatAnswer] of the results page; [None] is an answer that is
    [undefined] or [null]. *)
Definition formatAnswer (answer : option string) : string :=
  match answer with
  | Some a => if truthy a then trim (strip_answer_label a) else ""
  | None => ""
  end.

(** [option.replace(/^[A-Za-z0-9]+[)\.:\-]?\s*/, '')]: letters and digits
    (at least one), then at most one delimiter, then white space. *)
Definition strip_option_label (option : string) : string :=
  match option with
  | String c rest =>
      if isAlnum c then
        let rest := dropWhile isAlnum rest in
        let rest :=
          match rest with
          | String d rest' => if isDelimiter d then rest' else rest
          | EmptyString => rest
          end in
        dropWhile isWhiteSpace rest
      else option
  | EmptyString => option
  end.

(** [s.split('\n')] *)
Fixpoint split_lines (s : string) : list string :=
  match s with
  | EmptyString => [EmptyString]
  | String c s' =>
      if Ascii.eqb c "010" then EmptyString :: split_lines s'
      else match split_lines s' with
           | line :: lines => String c line :: lines
           | [] => [String c EmptyString]
           end
  end.

(** [lines.join('\n')] *)
Fixpoint join_lines (lines : list string) : string :=
  match lines with
  | [] => EmptyString
  | [line] => line
  | line :: rest => line +:+ String "010" (join_lines rest)
  end.

(** [cleanOptionText]; [None] is an option that is not a string. *)
Definition cleanOptionText (option : Datatypes.option string) : string :=
  match option with
  | None => ""
  | Some o =>
      if includes (String "010" EmptyString) o
      then trim (join_lines (tail (split_lines o)))
      else trim (strip_option_label o)
  end.

(** Every code unit of [s] satisfies [p]. *)
Fixpoint all_chars (p : ascii → bool) (s : string) : bool :=
  match s with
  | EmptyString => true
  | String c s' => p c && all_chars p s'
  end.

(** [s] starts with a code unit that satisfies [p]. *)
Definition starts_with (p : ascii → bool) (s : string) : bool :=
  match s with
  | EmptyString => false
  | String c _ => p c
  end.

Definition isNewline (c : ascii) : bool := Ascii.eqb c "010".

Definition isClosingParen (c : ascii) : bool := Ascii.eqb c ")".

End Clean.

(** ** The quiz attempt page: moving between questions *)

Module QuizAttempt.

(** [handleNextQuestion], for a quiz of [n] questions:
    [if (currentQuestionIndex < quiz.questions.length - 1)]. *)
Definition handleNextQuestion (n : nat) (currentQuestionIndex : nat) : nat :=
  if (Z.of_nat currentQuestionIndex <? Z.of_nat n - 1)%Z
  then (currentQuestionIndex + 1)%nat
  else currentQuestionIndex.

(** [handlePreviousQuestion] *)
Definition handlePreviousQuestion (currentQuestionIndex : nat) : nat :=
  if (0 <? currentQuestionIndex)%nat
  then (currentQuestionIndex - 1)%nat
  else currentQuestionIndex.

Inductive Move := Next | Previous.

Definition move (n : nat) (m : Move) (currentQuestionIndex : nat) : nat :=
  match m with
  | Next => handleNextQuestion n currentQuestionIndex
  | Previous => handlePreviousQuestion currentQuestionIndex
  end.

(** The clicks of a user, oldest first. *)
Definition moves (n : nat) (ms : list Move) (start : nat) : nat :=
  foldl (λ i m, move n m i) start ms.

End QuizAttempt.

(** ** The login page *)

Module LoginForm.
Record t := {
  email : string;
  password : string;
  error : string;
  isLoading : bool;
  (** the pending [setTimeout(() => navigate(to, { replace }), delay)]
      calls, latest first *)
  timers : list (nat * string * bool)
}.
End LoginForm.

Definition LoginForm_setError (msg : string) (f : LoginForm.t) : LoginForm.t :=
  {| LoginForm.email := LoginForm.email f;
     LoginForm.password := LoginForm.password f;
     LoginForm.error := msg;
     LoginForm.isLoading := LoginForm.isLoading f;
     LoginForm.timers := LoginForm.timers f |}.

Definition LoginForm_setIsLoading (b : bool) (f : LoginForm.t) : LoginForm.t :=
  {| LoginForm.email := LoginForm.email f;
     LoginForm.password := LoginForm.password f;
     LoginForm.error := LoginForm.error f;
     LoginForm.isLoading := b;
     LoginForm.timers := LoginForm.timers f |}.

Definition LoginForm_setTimeout (delay : nat) (to : string) (replace : bool)
    (f : LoginForm.t) : LoginForm.t :=
  {| LoginForm.email := LoginForm.email f;
     LoginForm.password := LoginForm.password f;
     LoginForm.error := LoginForm.error f;
     LoginForm.isLoading := LoginForm.isLoading f;
     LoginForm.timers := (delay, to, replace) :: LoginForm.timers f |}.

(** A property spliced into a template literal. *)
Definition template_of (o : option string) : string :=
  match o with Some s => s | None => "undefined" end.

(** The [switch (err.code)] of the login page. *)
Definition firebase_error_message (err_code : string) (err_message : option string) : string :=
  if String.eqb err_code "auth/invalid-email" then
    "Invalid email address format."
  else if String.eqb err_code "auth/user-disabled" then
    "This account has been disabled."
  else if String.eqb err_code "auth/user-not-found" then
    "No account found with this email."
  else if String.eqb err_code "auth/wrong-password" then
    "Incorrect password for this account."
  else if String.eqb err_code "auth/too-many-requests" then
    "Too many failed login attempts. Please try again later."
  else if String.eqb err_code "auth/network-request-failed" then
    "Network error. Please check your internet connection and try again."
  else
    "Authentication error: " +:+ template_of err_message.

Section LoginPage.

Variable env : Env.

(** [window.location.hostname === 'ailearning.cbtbags.com'] *)
Variable isCloudflare : bool.

(** The [catch] block of [handleSubmit]. Of the response object logged in
    the second branch the model records the body. *)
Definition handleSubmit_catch (err : JsError) : M (LoginForm.t * World) unit :=
  on_world (console_error [ArgString "Login error details:"; ArgError err]);;
  if truthy_opt (code err) then
    on_world (console_error [ArgString ("Firebase error code: " +:+ template_of (code err))]);;
    on_local (modify (LoginForm_setError
                        (firebase_error_message (template_of (code err)) (message err))))
  else
    match response err with
    | Some r =>
        on_world (console_error [ArgString "Non-Firebase error response:"; ArgData (data r)]);;
        let detail :=
          match data r !! "detail" with
          | Some d => if truthy d then d else "Unknown error"
          | None => "Unknown error"
          end in
        on_local (modify (LoginForm_setError ("Login failed: " +:+ detail)))
    | None =>
        on_world (console_error [ArgString "Generic error:"; ArgError err]);;
        on_local (modify (LoginForm_setError
                            "An error occurred during login. Please check your network connection."))
    end.

(** [handleSubmit] of the login page; the values of [email] and
    [password] are those of the render in which the handler was created. *)
Definition handleSubmit : M (LoginForm.t * World) unit :=
  f ← on_local (gets id);
  if negb (truthy (LoginForm.email f)) || negb (truthy (LoginForm.password f)) then
    on_local (modify (LoginForm_setError "Please fill in all fields"))
  else
    try_finally
      (try_catch
         (on_local (modify (LoginForm_setIsLoading true));;
          on_local (modify (LoginForm_setError ""));;
          on_world (console_log
                      [ArgString ("Login attempt - email: " +:+ LoginForm.email f
                                  +:+ ", environment: "
                                  +:+ (if isCloudflare then "cloudflare" else "local"))]);;
          success ← on_world (login env (LoginForm.email f) (LoginForm.password f));
          if success : bool then
            on_world (console_log [ArgString "Login successful, redirecting to dashboard"]);;
            on_local (modify (LoginForm_setTimeout 100 "/" true))
          else
            on_world (console_error
                        [ArgString "Login returned false, but no error was thrown"]);;
            on_local (modify (LoginForm_setError
                                "Failed to login. Authentication unsuccessful.")))
         handleSubmit_catch)
      (on_local (modify (LoginForm_setIsLoading false))).

End LoginPage.

(** The clicks of a user on options, oldest first: position and option. *)
Definition select_all (clicks : list (nat * string)) (d : Dashboard) : Dashboard :=
  foldl (λ d click, handleAnswerSelect click.1 click.2 d) d clicks.

(** ** Vocabulary of the further properties *)

(** The location is neither read differently nor assigned. *)
Definition location_frame (w w' : World) : Prop :=
  location_pathname w' = location_pathname w
  ∧ location_href_assigned w' = location_href_assigned w.

(** [config.headers['Authorization'] = v] as a function. *)
Definition with_Authorization (v : string) (c : RequestConfig) : RequestConfig :=
  {| url := url c;
     method := method c;
     headers := <["Authorization" := v]> (headers c);
     body := body c |}.

(** The error carries a 401 response and is not flagged as a timeout. *)
Definition is_unauthorized (err : JsError) : Prop :=
  code err ≠ Some "ECONNABORTED"
  ∧ ∃ r, response err = Some r ∧ status r = 401.

(** ** More sample collaborators and states *)

Module Scenario.

Definition quota_exceeded : JsError :=
  {| code := None;
     response := None;
     message := Some "QuotaExceededError: The quota has been exceeded." |}.

(** The provider mints; web storage refuses the second access (the write
    of the fresh token) and no other. *)
Definition env_write_refused : Env :=
  {| signInWithEmailAndPassword := λ _ _ _, Return (Some Sample.alice);
     createUserWithEmailAndPassword := λ _ _ _, Return (Some Sample.alice);
     updateProfile := λ _ _ _, Return tt;
     signOut := λ _, Return tt;
     getIdToken := λ _ _ _, Return "fresh.jwt";
     localStorage_fault := λ t, if (t =? 1)%nat then Some quota_exceeded else None;
     axios_dispatch := λ _ _, Return Sample.ok_response;
     Date_now := λ t, t |}.

(** The backend rejects every request with 401. *)
Definition env_backend_401 : Env :=
  {| signInWithEmailAndPassword := λ _ _ _, Return (Some Sample.alice);
     createUserWithEmailAndPassword := λ _ _ _, Return (Some Sample.alice);
     updateProfile := λ _ _ _, Return tt;
     signOut := λ _, Return tt;
     getIdToken := λ _ _ _, Return "fresh.jwt";
     localStorage_fault := λ _, None;
     axios_dispatch := λ _ _, Throw Sample.unauthorized;
     Date_now := λ t, t |}.

(** The provider rejects the password. *)
Definition wrong_password : JsError :=
  {| code := Some "auth/wrong-password";
     response := None;
     message := Some "Firebase: Error (auth/wrong-password)." |}.

Definition env_wrong_password : Env :=
  {| signInWithEmailAndPassword := λ _ _ _, Throw wrong_password;
     createUserWithEmailAndPassword := λ _ _ _, Throw wrong_password;
     updateProfile := λ _ _ _, Return tt;
     signOut := λ _, Return tt;
     getIdToken := λ _ _ _, Return "fresh.jwt";
     localStorage_fault := λ _, None;
     axios_dispatch := λ _ _, Return Sample.ok_response;
     Date_now := λ t, t |}.

(** The provider mints a new token at every call: [jwt-t] at call [t]. *)
Definition env_rotating : Env :=
  {| signInWithEmailAndPassword := λ _ _ _, Return (Some Sample.alice);
     createUserWithEmailAndPassword := λ _ _ _, Return (Some Sample.alice);
     updateProfile := λ _ _ _, Return tt;
     signOut := λ _, Return tt;
     getIdToken := λ _ _ t, Return ("jwt-" +:+ pretty t);
     localStorage_fault := λ _, None;
     axios_dispatch := λ _ _, Return Sample.ok_response;
     Date_now := λ t, t |}.

(** Sign-up succeeds, the profile update is refused. *)
Definition env_profile_refused : Env :=
  {| signInWithEmailAndPassword := λ _ _ _, Return (Some Sample.alice);
     createUserWithEmailAndPassword := λ _ _ _, Return (Some Sample.alice);
     updateProfile := λ _ _ _, Throw Sample.network_failed;
     signOut := λ _, Return tt;
     getIdToken := λ _ _ _, Return "fresh.jwt";
     localStorage_fault := λ _, None;
     axios_dispatch := λ _ _, Return Sample.ok_response;
     Date_now := λ t, t |}.

(** A backend that looks at what it is sent: it accepts the practice
    attempt with no questions and a NaN score, and nothing else. *)
Definition env_accepts_empty_attempt_only : Env :=
  {| signInWithEmailAndPassword := λ _ _ _, Return (Some Sample.alice);
     createUserWithEmailAndPassword := λ _ _ _, Return (Some Sample.alice);
     updateProfile := λ _ _ _, Return tt;
     signOut := λ _, Return tt;
     getIdToken := λ _ _ _, Return "fresh.jwt";
     localStorage_fault := λ _, None;
     axios_dispatch := λ config _,
       match body config with
       | Some {| Attempt.quiz_type := "practice";
                 Attempt.score := NaN;
                 Attempt.questions := [] |} =>
           if String.eqb (url config) "/quizzes/practice/attempt"
           then Return Sample.ok_response
           else Throw Sample.network_failed
       | _ => Throw Sample.network_failed
       end;
     Date_now := λ t, t |}.

(** A timeout error that nevertheless carries a 401 response. *)
Definition timed_out_401 : JsError :=
  {| code := Some "ECONNABORTED";
     response := Some {| status := 401; statusText := "Unauthorized"; data := ∅ |};
     message := Some "timeout of 15000ms exceeded" |}.

End Scenario.

(** * Properties *)

(** ** The grading computation *)

Section Grading.

Implicit Types (data : list Question.t) (answers : gmap nat string).

Lemma filter_true_cons (b : bool) (l : list bool) :
  length (filter Is_true (b :: l))
  = ((if b then 1 else 0) + length (filter Is_true l))%nat.
Proof.
  destruct b.
  - rewrite filter_cons_True by exact I. reflexivity.
  - rewrite filter_cons_False by (intros []). reflexivity.
Qed.

(** The loop started at position [index] with the counter at [c]. *)
Lemma grade_map_spec answers data : ∀ index c,
  grade_map answers index c data
  = ((c + length (filter Is_true
                    (imap (λ i, answered_correctly answers (index + i)) data)))%nat,
     imap (λ i, entry_at answers (index + i)) data).
Proof.
  induction data as [|q rest IH]; intros index c; simpl.
  - f_equal. lia.
  - rewrite IH, filter_true_cons, Nat.add_0_r.
    assert (Hflags :
      imap (λ i, answered_correctly answers (S index + i)) rest
      = imap ((λ i, answered_correctly answers (index + i)) ∘ S) rest).
    { apply imap_ext. intros i x _. simpl. f_equal. lia. }
    assert (Hentries :
      imap (λ i, entry_at answers (S index + i)) rest
      = imap ((λ i, entry_at answers (index + i)) ∘ S) rest).
    { apply imap_ext. intros i x _. simpl. f_equal. lia. }
    rewrite Hflags, Hentries. unfold answered_correctly at 2.
    f_equal.
    destruct (bool_decide _); lia.
Qed.

Lemma grade_unfold data answers :
  grade data answers
  = {| Attempt.quiz_type := "practice";
       Attempt.score := js_div (count_correct data answers) (length data);
       Attempt.questions := imap (entry_at answers) data |}.
Proof.
  unfold grade. rewrite grade_map_spec. reflexivity.
Qed.

Lemma count_correct_le data answers : (count_correct data answers ≤ length data)%nat.
Proof.
  unfold count_correct.
  etransitivity; [apply length_filter|]. rewrite length_imap. reflexivity.
Qed.

Lemma grade_questions_lookup data answers i q :
  data !! i = Some q →
  Attempt.questions (grade data answers) !! i = Some (entry_at answers i q).
Proof.
  intros Hq. rewrite grade_unfold. simpl.
  rewrite list_lookup_imap, Hq. reflexivity.
Qed.

End Grading.

Example grade_three_questions :
  Attempt.score (grade Sample.three_questions Sample.three_answers) = Finite (2 # 3)
  ∧ QuestionResult.is_correct <$> Attempt.questions (grade Sample.three_questions Sample.three_answers)
    = [true; false; true].
Proof. split; reflexivity. Qed.

Example trim_token : trim "  stale.jwt " = "stale.jwt".
Proof. reflexivity. Qed.

(** C7: for a question set of length N ≥ 1 and any answer record, the
    score is the number of correctly answered questions divided by N, it
    lies between 0 and 1, and the per-question record has exactly N
    entries. *)
Theorem grade_score_is_fraction_correct (data : list Question.t) (answers : gmap nat string) :
  (1 ≤ length data)%nat →
  ∃ q : Q,
    Attempt.score (grade data answers) = Finite q
    ∧ (q == inject_Z (Z.of_nat (count_correct data answers))
            / inject_Z (Z.of_nat (length data)))%Q
    ∧ (0 <= q)%Q ∧ (q <= 1)%Q
    ∧ length (Attempt.questions (grade data answers)) = length data.
Proof.
  intros HN. rewrite grade_unfold. simpl.
  pose proof (count_correct_le data answers) as Hle.
  destruct (length data) as [|n] eqn:Hlen; [lia|].
  exists (Z.of_nat (count_correct data answers) # Pos.of_nat (S n)).
  assert (Hpos : Z.pos (Pos.of_nat (S n)) = Z.of_nat (S n)) by lia.
  repeat split.
  - rewrite Qmake_Qdiv, Hpos. reflexivity.
  - unfold Qle. simpl. lia.
  - unfold Qle. simpl Qnum. simpl Qden. lia.
  - rewrite length_imap. exact Hlen.
Qed.

Lemma grade_score_is_fraction_correct_witness :
  ∃ q : Q,
    Attempt.score (grade Sample.three_questions Sample.three_answers) = Finite q
    ∧ (q == inject_Z (Z.of_nat (count_correct Sample.three_questions Sample.three_answers))
            / inject_Z (Z.of_nat (length Sample.three_questions)))%Q
    ∧ (0 <= q)%Q ∧ (q <= 1)%Q
    ∧ length (Attempt.questions (grade Sample.three_questions Sample.three_answers))
      = length Sample.three_questions.
Proof.
  apply (grade_score_is_fraction_correct Sample.three_questions Sample.three_answers).
  simpl. lia.
Defined.

(** C8: a question whose position has no entry in the answer record gets
    an entry of its own in the per-question record, with no selection and
    marked incorrect; the grading computation is a total function, so it
    returns on every input of this kind. *)
Theorem unanswered_question_is_incorrect
    (data : list Question.t) (answers : gmap nat string) (i : nat) (q : Question.t) :
  data !! i = Some q →
  answers !! i = None →
  ∃ r : QuestionResult.t,
    Attempt.questions (grade data answers) !! i = Some r
    ∧ QuestionResult.is_correct r = false
    ∧ QuestionResult.selected_option r = None
    ∧ QuestionResult.question r = Question.text q.
Proof.
  intros Hq Hnone. exists (entry_at answers i q).
  split; [apply grade_questions_lookup; exact Hq|].
  unfold entry_at, answered_correctly. simpl.
  rewrite Hnone. repeat split.
Qed.

Lemma unanswered_question_is_incorrect_witness :
  ∃ r : QuestionResult.t,
    Attempt.questions (grade Sample.three_questions {[0%nat := "A"]}) !! 1%nat = Some r
    ∧ QuestionResult.is_correct r = false
    ∧ QuestionResult.selected_option r = None
    ∧ QuestionResult.question r = "Q2".
Proof.
  apply (unanswered_question_is_incorrect Sample.three_questions {[0%nat := "A"]} 1
           {| Question.text := "Q2"; Question.options := ["A) x"; "B) y"];
              Question.correct_answer := "B) y"; Question.explanation := "" |});
    reflexivity.
Defined.

(** ** Running the computations *)

Ltac js_unfold :=
  unfold try_catch, try_finally, promise_then, with_object, on_world, on_local,
    localStorage_getItem, localStorage_setItem, localStorage_removeItem,
    localStorage_access, external, console_log, console_warn, console_error,
    user_getIdToken, throw, gets, modify, mbind, M_bind, mret, M_ret in *.

Section Rules.

Context {S : Type}.

Lemma never_throws_ret {A} (a : A) : never_throws (mret a : M S A).
Proof. intros s. exists a, s. reflexivity. Qed.

Lemma never_throws_gets {A} (f : S → A) : never_throws (gets f).
Proof. intros s. exists (f s), s. reflexivity. Qed.

Lemma never_throws_modify (f : S → S) : never_throws (modify f).
Proof. intros s. exists tt, (f s). reflexivity. Qed.

Lemma never_throws_bind {A B} (m : M S A) (k : A → M S B) :
  never_throws m → (∀ a, never_throws (k a)) → never_throws (m ≫= k).
Proof.
  intros Hm Hk s. destruct (Hm s) as (a & s' & Hrun).
  destruct (Hk a s') as (b & s'' & Hrun').
  exists b, s''. unfold mbind, M_bind. rewrite Hrun. exact Hrun'.
Qed.

(** A [try] statement whose [catch] block returns on every state returns
    on every state, whatever its [try] block does. *)
Lemma never_throws_try_catch {A} (m : M S A) (h : JsError → M S A) :
  (∀ e, never_throws (h e)) → never_throws (try_catch m h).
Proof.
  intros Hh s. unfold try_catch.
  destruct (m s) as [[a|e] s'].
  - exists a, s'. reflexivity.
  - apply Hh.
Qed.

Variable R : S → S → Prop.
Hypothesis R_refl : ∀ s, R s s.
Hypothesis R_trans : ∀ s1 s2 s3, R s1 s2 → R s2 s3 → R s1 s3.

Lemma preserves_ret {A} (a : A) : preserves R (mret a : M S A).
Proof. intros s r s' Hrun. inversion Hrun. apply R_refl. Qed.

Lemma preserves_throw {A} (e : JsError) : preserves R (throw e : M S A).
Proof. intros s r s' Hrun. inversion Hrun. apply R_refl. Qed.

Lemma preserves_bind {A B} (m : M S A) (k : A → M S B) :
  preserves R m → (∀ a, preserves R (k a)) → preserves R (m ≫= k).
Proof.
  intros Hm Hk s r s'. unfold mbind, M_bind.
  destruct (m s) as [[a|e] s1] eqn:Hrun; intros Hrun'.
  - eapply R_trans; [eapply Hm; exact Hrun | eapply Hk; exact Hrun'].
  - inversion Hrun'; subst. eapply Hm; exact Hrun.
Qed.

Lemma preserves_try_catch {A} (m : M S A) (h : JsError → M S A) :
  preserves R m → (∀ e, preserves R (h e)) → preserves R (try_catch m h).
Proof.
  intros Hm Hh s r s'. unfold try_catch.
  destruct (m s) as [[a|e] s1] eqn:Hrun; intros Hrun'.
  - inversion Hrun'; subst. eapply Hm; exact Hrun.
  - eapply R_trans; [eapply Hm; exact Hrun | eapply Hh; exact Hrun'].
Qed.

End Rules.

Lemma config_frame_refl s : config_frame s s.
Proof. repeat split. Qed.

Lemma config_frame_trans s1 s2 s3 :
  config_frame s1 s2 → config_frame s2 s3 → config_frame s1 s3.
Proof.
  intros (Hu & Hm & Hb & Hh) (Hu' & Hm' & Hb' & Hh').
  repeat split; try congruence.
  intros k Hk. rewrite Hh', Hh by exact Hk. reflexivity.
Qed.

Lemma on_world_never_throws {S A} (m : M World A) :
  never_throws m → never_throws (on_world m : M (S * World) A).
Proof.
  intros Hm [x w]. destruct (Hm w) as (a & w' & Hrun).
  exists a, (x, w'). unfold on_world. rewrite Hrun. reflexivity.
Qed.

Lemma on_world_config_frame {A} (m : M World A) :
  preserves config_frame (on_world m : M (RequestConfig * World) A).
Proof.
  intros [c w] r [c' w']. unfold on_world.
  destruct (m w) as [r0 w0]. intros Hrun. inversion Hrun; subst.
  repeat split.
Qed.

Lemma set_Authorization_never_throws v : never_throws (set_Authorization v).
Proof. intros [c w]. eexists _, _. reflexivity. Qed.

Lemma set_Authorization_config_frame v : preserves config_frame (set_Authorization v).
Proof.
  intros [c w] r [c' w'] Hrun. inversion Hrun; subst.
  repeat split. simpl. intros k Hk. apply lookup_insert_ne. congruence.
Qed.

Section Interceptor.

Variable env : Env.

Lemma attach_cached_token_config_frame :
  preserves config_frame (attach_cached_token env).
Proof.
  unfold attach_cached_token.
  apply (preserves_bind _ config_frame_trans); [apply on_world_config_frame|].
  intros [t|]; [destruct (truthy t)|].
  - apply set_Authorization_config_frame.
  - apply (preserves_ret _ config_frame_refl).
  - apply (preserves_ret _ config_frame_refl).
Qed.

Lemma request_attach_token_never_throws : never_throws (request_attach_token env).
Proof.
  unfold request_attach_token.
  apply never_throws_try_catch. intros error.
  apply on_world_never_throws, never_throws_modify.
Qed.

Lemma request_attach_token_config_frame :
  preserves config_frame (request_attach_token env).
Proof.
  unfold request_attach_token.
  apply (preserves_try_catch _ config_frame_trans);
    [|intros error; apply on_world_config_frame].
  apply (preserves_bind _ config_frame_trans); [apply on_world_config_frame|].
  intros [u|]; [|apply attach_cached_token_config_frame].
  apply (preserves_try_catch _ config_frame_trans).
  - apply (preserves_bind _ config_frame_trans); [apply on_world_config_frame|].
    intros token.
    apply (preserves_bind _ config_frame_trans);
      [apply set_Authorization_config_frame|intros _; apply on_world_config_frame].
  - intros tokenError.
    apply (preserves_bind _ config_frame_trans);
      [apply on_world_config_frame|intros _; apply attach_cached_token_config_frame].
Qed.

(** Once the [try]/[catch] statement is through, the interceptor returns
    the configuration object. *)
Lemma request_onFulfilled_run config w r c' w' :
  request_attach_token env (config, w) = (r, (c', w')) →
  request_onFulfilled env config w
  = (match r with Return _ => Return c' | Throw e => Throw e end, w').
Proof.
  intros Hrun. unfold request_onFulfilled, with_object, mbind, M_bind.
  rewrite Hrun. destruct r; reflexivity.
Qed.

(** The transport is called with what the interceptor returns. *)
Lemma api_request_run config w config' w' :
  request_onFulfilled env config w = (Return config', w') →
  api_request env config w
  = promise_then (external (axios_dispatch env config'))
      response_onFulfilled (response_onRejected env) w'.
Proof.
  intros Hrun. unfold api_request, promise_then, mbind, M_bind.
  rewrite Hrun. reflexivity.
Qed.

End Interceptor.

(** C10: the request interceptor returns a request configuration on
    every request, in every state and whatever the identity provider and
    the web storage answer: each exception of the credential plumbing
    (mint, cached-store read, store write) is caught inside. The
    configuration returned is the one received, up to its Authorization
    header, and the transport is called with it. *)
Theorem request_interceptor_always_returns (env : Env) (config : RequestConfig) (w : World) :
  ∃ config' w',
    request_onFulfilled env config w = (Return config', w')
    ∧ same_request_but_Authorization config config'
    ∧ api_request env config w
      = promise_then (external (axios_dispatch env config'))
          response_onFulfilled (response_onRejected env) w'.
Proof.
  destruct (request_attach_token_never_throws env (config, w)) as ([] & [c' w'] & Hrun).
  pose proof (request_onFulfilled_run env config w _ c' w' Hrun) as Hreturn.
  exists c', w'. split; [exact Hreturn|]. split.
  - exact (request_attach_token_config_frame env _ _ _ Hrun).
  - apply api_request_run. exact Hreturn.
Qed.

(** Every exception source at once: the mint is rejected and web storage
    is blocked, and the request still goes out, without a header. *)
Example request_goes_out_when_everything_throws :
  fst (request_onFulfilled Sample.env_hostile Sample.get_users_me Sample.world_signed_in)
  = Return Sample.get_users_me.
Proof. reflexivity. Qed.

(** C3: when no fresh credential can be had (no principal is known, or
    the mint fails) and web storage is accessible, the interceptor returns
    the configuration and the transport is called with it; a non-empty
    stored value is attached, trimmed, as the bearer Authorization header;
    with nothing stored (or the empty string, which [if (cachedToken)]
    takes for nothing), the configuration goes out as it came, hence
    without an Authorization header when it came without one. Web storage
    is not written. *)
Theorem cached_token_is_fallback (env : Env) (config : RequestConfig) (w : World) :
  mint_unavailable env w →
  storage_reliable env →
  ∃ config' w',
    request_onFulfilled env config w = (Return config', w')
    ∧ api_request env config w
      = promise_then (external (axios_dispatch env config'))
          response_onFulfilled (response_onRejected env) w'
    ∧ same_request_but_Authorization config config'
    ∧ localStorage w' = localStorage w
    ∧ (∀ v, credential_store w = Some v → v ≠ "" →
         headers config' !! "Authorization" = Some ("Bearer " +:+ trim v))
    ∧ (truthy_opt (credential_store w) = false →
         config' = config
         ∧ (headers config !! "Authorization" = None →
            headers config' !! "Authorization" = None)).
Proof.
  intros Hmint Hst.
  destruct (request_attach_token_never_throws env (config, w)) as ([] & [config' w'] & Hbody).
  pose proof (request_onFulfilled_run env config w _ config' w' Hbody) as Hrun.
  pose proof (request_attach_token_config_frame env _ _ _ Hbody) as Hframe.
  clear Hbody. simpl in Hrun, Hframe.
  exists config', w'.
  split; [exact Hrun|].
  split; [apply api_request_run; exact Hrun|].
  split; [exact Hframe|].
  revert Hrun. unfold mint_unavailable in Hmint.
  unfold request_onFulfilled, request_attach_token, attach_cached_token,
    set_Authorization, credential_store.
  js_unfold. simpl.
  destruct (auth_currentUser w) as [u|].
  - destruct Hmint as [e He]. rewrite He. simpl. rewrite Hst. simpl.
    destruct (localStorage w !! TOKEN_KEY) as [[|a v]|]; simpl;
      intros Hrun; inversion Hrun; subst; simpl;
      (split; [reflexivity|]); split; intros; simplify_eq; auto.
    apply lookup_insert_eq.
  - rewrite Hst. simpl.
    destruct (localStorage w !! TOKEN_KEY) as [[|a v]|]; simpl;
      intros Hrun; inversion Hrun; subst; simpl;
      (split; [reflexivity|]); split; intros; simplify_eq; auto.
    apply lookup_insert_eq.
Qed.

Lemma cached_token_is_fallback_witness :
  ∃ config' w',
    request_onFulfilled Sample.env_mint_fails Sample.get_users_me Sample.world_signed_in
    = (Return config', w')
    ∧ headers config' !! "Authorization" = Some "Bearer stale.jwt".
Proof.
  destruct (cached_token_is_fallback Sample.env_mint_fails Sample.get_users_me
              Sample.world_signed_in)
    as (config' & w' & Hrun & _ & _ & _ & Hattach & _).
  - simpl. exists Sample.network_failed. reflexivity.
  - intros t. reflexivity.
  - exists config', w'. split; [exact Hrun|].
    apply (Hattach "  stale.jwt "); [reflexivity|discriminate].
Defined.

(** C2, evaluated at the failing input: on the protected quiz page of
    path [/quiz/login] (the route [/quiz/:quizId]) a 401 response empties
    the Credential Store, yet no redirect is triggered, although that
    location is not the login page; the substring test of the guard takes
    it for one. On [/quiz/7] the same response does redirect. *)
Lemma unauthorized_on_quiz_login_is_not_redirected :
  let w := Sample.world_at "/quiz/login" in
  let w' := snd (response_onRejected Sample.env_ok Sample.unauthorized w) in
  location_pathname w ≠ "/login"
  ∧ credential_store w' = None
  ∧ location_href_assigned w' = []
  ∧ location_href_assigned
      (snd (response_onRejected Sample.env_ok Sample.unauthorized (Sample.world_at "/quiz/7")))
    = ["/login"].
Proof. repeat split. discriminate. Qed.

(** The response phase branch by branch: an error carrying a 401
    response (not flagged as a timeout, web storage accessible) empties the
    Credential Store and assigns [/login] to the location unless the
    current path name contains [/login]; the error is re-thrown unchanged.
    An error whose response, if any, has another status, and a fulfilled
    response, leave web storage and the location as they were. *)
Theorem unauthorized_response_invalidates (env : Env) (w : World) :
  (∀ err r,
     response err = Some r → status r = 401 →
     code err ≠ Some "ECONNABORTED" →
     localStorage_fault env (clock w) = None →
     ∃ w',
       response_onRejected env err w = (Throw err, w')
       ∧ credential_store w' = None
       ∧ location_href_assigned w'
         = if includes "/login" (location_pathname w)
           then location_href_assigned w
           else "/login" :: location_href_assigned w)
  ∧ (∀ err,
       (∀ r, response err = Some r → status r ≠ 401) →
       ∃ w',
         response_onRejected env err w = (Throw err, w')
         ∧ localStorage w' = localStorage w
         ∧ location_href_assigned w' = location_href_assigned w)
  ∧ (∀ r, response_onFulfilled r w = (Return r, w)).
Proof.
  split; [|split].
  - intros err r Hr H401 Hcode Hst.
    unfold response_onRejected. js_unfold. simpl.
    rewrite bool_decide_eq_false_2 by exact Hcode.
    rewrite Hr. simpl.
    rewrite bool_decide_eq_true_2 by exact H401.
    simpl. rewrite Hst. simpl.
    destruct (includes "/login" (location_pathname w)); simpl;
      (eexists; split; [reflexivity|]; split; [apply lookup_delete_eq|reflexivity]).
  - intros err Hother.
    unfold response_onRejected. js_unfold. simpl.
    destruct (bool_decide (code err = Some "ECONNABORTED")); simpl.
    + eexists; split; [reflexivity|]; split; reflexivity.
    + destruct (response err) as [r|]; simpl.
      * rewrite bool_decide_eq_false_2 by (apply Hother; reflexivity). simpl.
        eexists; split; [reflexivity|]; split; reflexivity.
      * destruct (message err) as [m|]; simpl;
          [destruct (truthy m); [destruct (includes "Network Error" m)|]|]; simpl;
          (eexists; split; [reflexivity|]; split; reflexivity).
  - intros r. reflexivity.
Qed.

Lemma unauthorized_response_invalidates_witness :
  ∃ w',
    response_onRejected Sample.env_ok Sample.unauthorized (Sample.world_at "/quiz/7")
    = (Throw Sample.unauthorized, w')
    ∧ credential_store w' = None
    ∧ location_href_assigned w' = ["/login"].
Proof.
  apply (proj1 (unauthorized_response_invalidates Sample.env_ok (Sample.world_at "/quiz/7"))
           Sample.unauthorized
           {| status := 401; statusText := "Unauthorized"; data := ∅ |});
    [reflexivity | reflexivity | discriminate | reflexivity].
Defined.

(** ** The session controller *)

(** C1 fails: with the remote sign-out unreachable, [logout] returns
    [false] and the token is still in the Credential Store. *)
Lemma logout_keeps_token_when_signOut_throws :
  fst (logout Sample.env_signOut_fails Sample.world_signed_in) = Return false
  ∧ credential_store (snd (logout Sample.env_signOut_fails Sample.world_signed_in))
    = Some "  stale.jwt ".
Proof. split; reflexivity. Qed.

(** C1, as the code has it: when the remote sign-out succeeds (and web
    storage is accessible) [logout] returns [true] and leaves the
    Credential Store empty; when the remote sign-out throws, [logout]
    returns [false] and web storage is left exactly as it was. *)
Theorem logout_clears_store_on_signOut_success (env : Env) (w : World) :
  match signOut env (clock w) with
  | Return _ =>
      storage_reliable env →
      fst (logout env w) = Return true
      ∧ credential_store (snd (logout env w)) = None
  | Throw _ =>
      fst (logout env w) = Return false
      ∧ localStorage (snd (logout env w)) = localStorage w
  end.
Proof.
  unfold logout, logoutFirebase. js_unfold. simpl.
  destruct (signOut env (clock w)) as [[]|e]; simpl.
  - intros Hst. rewrite !Hst. simpl. split; [reflexivity|].
    unfold credential_store. simpl. apply lookup_delete_eq.
  - split; reflexivity.
Qed.

Lemma logout_clears_store_on_signOut_success_witness :
  storage_reliable Sample.env_ok
  ∧ fst (logout Sample.env_ok Sample.world_signed_in) = Return true
  ∧ credential_store (snd (logout Sample.env_ok Sample.world_signed_in)) = None.
Proof.
  assert (Hst : storage_reliable Sample.env_ok) by (intros t; reflexivity).
  split; [exact Hst|].
  exact (logout_clears_store_on_signOut_success Sample.env_ok Sample.world_signed_in Hst).
Defined.

(** C4, evaluated: once sign-up has succeeded and the credential cannot be
    obtained, [register] swallows the failure and returns [false], where
    [login] re-throws it; and the mint [register] itself asks for is not a
    forced refresh, so that with a provider answering forced refreshes
    only, [login] returns [true] and [register] returns [false]. *)
Theorem register_swallows_mint_failure :
  fst (login Sample.env_mint_fails "alice@example.com" "pw" Sample.world_starting)
  = Throw Sample.network_failed
  ∧ fst (register Sample.env_mint_fails "alice@example.com" "pw" "Alice" Sample.world_starting)
    = Return false
  ∧ fst (login Sample.env_forced_only "alice@example.com" "pw" Sample.world_starting)
    = Return true
  ∧ fst (register Sample.env_forced_only "alice@example.com" "pw" "Alice" Sample.world_starting)
    = Return false.
Proof. repeat split; reflexivity. Qed.

(** What [login] and [register] have in common: a failure of the
    sign-in or sign-up itself is re-thrown unchanged, and nothing is
    written to web storage. *)
Lemma login_rethrows_signIn_failure (env : Env) (w : World) (email password : string) e :
  signInWithEmailAndPassword env email password (clock w) = Throw e →
  fst (login env email password w) = Throw e
  ∧ localStorage (snd (login env email password w)) = localStorage w.
Proof.
  intros He. unfold login, loginWithEmailPassword. js_unfold. simpl.
  rewrite He. simpl. split; reflexivity.
Qed.

Lemma register_rethrows_signUp_failure (env : Env) (w : World)
    (email password displayName : string) e :
  createUserWithEmailAndPassword env email password (clock w) = Throw e →
  fst (register env email password displayName w) = Throw e
  ∧ localStorage (snd (register env email password displayName w)) = localStorage w.
Proof.
  intros He. unfold register, registerWithEmailPassword. js_unfold. simpl.
  rewrite He. simpl. split; reflexivity.
Qed.

(** C6: in the handler of principal-change notifications, a failed mint
    for a non-null principal is logged and web storage is left exactly as
    it was; a null principal empties the Credential Store. *)
Theorem passive_refresh_keeps_or_clears_store (env : Env) (w : World) :
  (∀ u e,
     getIdToken env u true (clock w) = Throw e →
     ∃ w',
       onAuthStateChanged_next env (Some u) w = (Return tt, w')
       ∧ localStorage w' = localStorage w
       ∧ console w'
         = {| level := LevelError;
              args := [ArgString "AuthContext: Error getting fresh token:"; ArgError e] |}
           :: {| level := LevelLog; args := [ArgString "AuthContext: Getting fresh token"] |}
           :: {| level := LevelLog;
                 args := [ArgString "AuthContext: Auth state changed, user:";
                          ArgString (describe_user (Some u))] |}
           :: console w)
  ∧ (localStorage_fault env (clock w) = None →
     ∃ w',
       onAuthStateChanged_next env None w = (Return tt, w')
       ∧ credential_store w' = None).
Proof.
  split.
  - intros u e He. unfold onAuthStateChanged_next. js_unfold. simpl.
    rewrite He. simpl. eexists. split; [reflexivity|]. split; reflexivity.
  - intros Hst. unfold onAuthStateChanged_next. js_unfold. simpl.
    rewrite Hst. simpl. eexists. split; [reflexivity|].
    unfold credential_store. simpl. apply lookup_delete_eq.
Qed.

Lemma passive_refresh_keeps_or_clears_store_witness :
  (∃ w',
     onAuthStateChanged_next Sample.env_mint_fails (Some Sample.alice) Sample.world_signed_in
     = (Return tt, w')
     ∧ credential_store w' = Some "  stale.jwt ")
  ∧ (∃ w',
       onAuthStateChanged_next Sample.env_mint_fails None Sample.world_signed_in
       = (Return tt, w')
       ∧ credential_store w' = None).
Proof.
  destruct (passive_refresh_keeps_or_clears_store Sample.env_mint_fails Sample.world_signed_in)
    as [Hkeep Hclear].
  split.
  - destruct (Hkeep Sample.alice Sample.network_failed eq_refl) as (w' & Hrun & Hstore & _).
    exists w'. split; [exact Hrun|]. unfold credential_store. rewrite Hstore. reflexivity.
  - apply Hclear. reflexivity.
Defined.

Lemma request_onFulfilled_provider_frame (env : Env) config :
  preserves provider_frame (request_onFulfilled env config).
Proof.
  intros w r w'.
  unfold request_onFulfilled, request_attach_token, attach_cached_token, set_Authorization.
  js_unfold. simpl. intros Hrun.
  repeat case_match; simplify_eq; split; reflexivity.
Qed.

Lemma response_onRejected_provider_frame (env : Env) e :
  preserves provider_frame (response_onRejected env e).
Proof.
  intros w r w'. unfold response_onRejected. js_unfold. simpl. intros Hrun.
  repeat case_match; simplify_eq; split; reflexivity.
Qed.

Lemma api_request_provider_frame (env : Env) config :
  preserves provider_frame (api_request env config).
Proof.
  intros w r w'. unfold api_request, promise_then, mbind, M_bind.
  destruct (request_onFulfilled env config w) as [[c|e] w1] eqn:Hreq.
  - apply request_onFulfilled_provider_frame in Hreq. destruct Hreq as [Hu Hl].
    unfold external.
    destruct (axios_dispatch env c (clock w1)) as [resp|e].
    + unfold response_onFulfilled. intros Hrun. inversion Hrun; subst.
      split; simpl; assumption.
    + intros Hrun. apply response_onRejected_provider_frame in Hrun.
      destruct Hrun as [Hu' Hl']. simpl in *. split; congruence.
  - apply request_onFulfilled_provider_frame in Hreq. destruct Hreq as [Hu Hl].
    intros Hrun. apply response_onRejected_provider_frame in Hrun.
    destruct Hrun as [Hu' Hl']. split; congruence.
Qed.

(** Handling a notification ends the unknown state: the principal is
    recorded and [loading] is off, provided the handler returns. *)
Lemma onAuthStateChanged_next_settles (env : Env) (user : option User) (w w' : World) :
  onAuthStateChanged_next env user w = (Return tt, w') →
  firebaseUser w' = user ∧ loading w' = false.
Proof.
  unfold onAuthStateChanged_next, api_get.
  destruct user as [u|]; js_unfold; simpl.
  - destruct (getIdToken env u true (clock w)); simpl.
    + destruct (localStorage_fault env (S (clock w))); simpl.
      * intros Hrun. inversion Hrun; subst. split; reflexivity.
      * match goal with |- context [api_request env ?c ?w0] =>
          destruct (api_request env c w0) as [[resp|e] w1] eqn:Hreq
        end;
        apply api_request_provider_frame in Hreq; destruct Hreq as [Hu Hl];
        intros Hrun; inversion Hrun; subst; simpl; split; assumption || reflexivity.
    + intros Hrun. inversion Hrun; subst. split; reflexivity.
  - destruct (localStorage_fault env (clock w)); simpl;
      intros Hrun; inversion Hrun; subst. split; reflexivity.
Qed.

(** ** The protected-route gate *)

(** C5, evaluated at the failing input: at the first render (no
    notification handled yet, [loading] on, no principal) the session state
    is unknown and a protected route shows nothing at all, not a loading
    indicator: the provider withholds its children. [ProtectedRoute]
    itself, given the provider's value at that moment, takes its redirect
    branch; its loading branch is never reached. *)
Lemma unknown_state_renders_nothing :
  sessionState Sample.world_starting = unknown
  ∧ protected_route Sample.world_starting (Page "Dashboard") = Nothing
  ∧ protected_route Sample.world_starting (Page "Dashboard") ≠ LoadingIndicator
  ∧ ProtectedRoute (Page "Dashboard") (AuthProvider_value Sample.world_starting)
    = Navigate "/login" true.
Proof. repeat split. discriminate. Qed.

(** The gate by the provider's cells: nothing while [loading] is on, the
    redirect to the login entry point with [loading] off and no principal,
    the page with [loading] off and a principal. *)
Theorem protected_route_by_session_state (w : World) (page : Element) :
  protected_route w page
  = match sessionState w with
    | unknown => Nothing
    | unauthenticated => Navigate "/login" true
    | authenticated => page
    end.
Proof.
  unfold protected_route, AuthProvider, ProtectedRoute, AuthProvider_value, sessionState.
  destruct (loading w); simpl; [reflexivity|].
  destruct (firebaseUser w); reflexivity.
Qed.

(** The loading branch of [ProtectedRoute] is never taken with a context
    value that comes from the provider. *)
Lemma ProtectedRoute_loading_branch_dead (w : World) (page : Element) :
  page ≠ LoadingIndicator →
  ProtectedRoute page (AuthProvider_value w) ≠ LoadingIndicator.
Proof.
  intros Hpage. unfold ProtectedRoute, AuthProvider_value. simpl.
  destruct (firebaseUser w); simpl; [exact Hpage|discriminate].
Qed.

(** * Further properties *)

(** ** Grading and answer selection *)

Lemma filter_true_all (flags : list bool) :
  length (filter Is_true flags) = length flags ↔ Forall Is_true flags.
Proof.
  induction flags as [|b flags IH].
  - split; [constructor|reflexivity].
  - rewrite filter_true_cons. simpl.
    pose proof (length_filter Is_true flags) as Hle.
    destruct b; simpl.
    + rewrite Forall_cons. split.
      * intros Hlen. split; [exact I|]. apply IH. lia.
      * intros [_ Hall]. apply IH in Hall. lia.
    + split; [lia|]. intros Hall. inversion Hall as [|? ? Hb]. destruct Hb.
Qed.

Lemma filter_true_none (flags : list bool) :
  length (filter Is_true flags) = 0%nat ↔ Forall (λ b, b = false) flags.
Proof.
  induction flags as [|b flags IH].
  - split; [constructor|reflexivity].
  - rewrite filter_true_cons, Forall_cons. destruct b; simpl.
    + split; [lia|]. intros [Hb _]. discriminate.
    + rewrite IH. split; [intros H; split; [reflexivity|exact H]|intros [_ H]; exact H].
Qed.

Lemma score_one_iff (c n : nat) :
  (c ≤ S n)%nat →
  ((Z.of_nat c # Pos.of_nat (S n)) == 1)%Q ↔ c = S n.
Proof.
  intros Hle. unfold Qeq. simpl Qnum. simpl Qden.
  assert (Hpos : Z.pos (Pos.of_nat (S n)) = Z.of_nat (S n)) by lia.
  rewrite Hpos. lia.
Qed.

Lemma score_zero_iff (c n : nat) :
  ((Z.of_nat c # Pos.of_nat (S n)) == 0)%Q ↔ c = 0%nat.
Proof. unfold Qeq. simpl Qnum. simpl Qden. lia. Qed.

(** For a non-empty question set the score is 1 exactly when every
    question is answered with the first character of its correct answer,
    and 0 exactly when no question is. *)
Theorem score_extremes (data : list Question.t) (answers : gmap nat string) :
  (1 ≤ length data)%nat →
  ∃ q : Q,
    Attempt.score (grade data answers) = Finite q
    ∧ ((q == 1)%Q ↔
       ∀ i question, data !! i = Some question →
         answers !! i = Some (charAt0 (Question.correct_answer question)))
    ∧ ((q == 0)%Q ↔
       ∀ i question, data !! i = Some question →
         answers !! i ≠ Some (charAt0 (Question.correct_answer question))).
Proof.
  intros HN. rewrite grade_unfold. simpl.
  pose proof (count_correct_le data answers) as Hle.
  destruct (length data) as [|n] eqn:Hlen; [lia|]. simpl.
  eexists. split; [reflexivity|]. split.
  - rewrite score_one_iff by exact Hle. rewrite <- Hlen.
    unfold count_correct.
    replace (length data) with (length (imap (answered_correctly answers) data))
      by apply length_imap.
    rewrite filter_true_all, Forall_lookup. split.
    + intros Hall i question Hq.
      specialize (Hall i (answered_correctly answers i question)).
      rewrite list_lookup_imap, Hq in Hall. specialize (Hall eq_refl).
      unfold answered_correctly in Hall. apply bool_decide_unpack in Hall. exact Hall.
    + intros Hall i b. rewrite list_lookup_imap.
      destruct (data !! i) as [question|] eqn:Hq; simpl; [|discriminate].
      intros [= <-]. unfold answered_correctly.
      apply bool_decide_pack. apply Hall. exact Hq.
  - rewrite score_zero_iff. unfold count_correct.
    rewrite filter_true_none, Forall_lookup. split.
    + intros Hall i question Hq Hans.
      specialize (Hall i (answered_correctly answers i question)).
      rewrite list_lookup_imap, Hq in Hall. specialize (Hall eq_refl).
      unfold answered_correctly in Hall.
      rewrite bool_decide_eq_false in Hall. contradiction.
    + intros Hall i b. rewrite list_lookup_imap.
      destruct (data !! i) as [question|] eqn:Hq; simpl; [|discriminate].
      intros [= <-]. unfold answered_correctly.
      rewrite bool_decide_eq_false. apply Hall. exact Hq.
Qed.

Lemma score_extremes_witness :
  ∃ q : Q,
    Attempt.score (grade Sample.three_questions Sample.three_answers) = Finite q
    ∧ ((q == 1)%Q ↔
       ∀ i question, Sample.three_questions !! i = Some question →
         Sample.three_answers !! i = Some (charAt0 (Question.correct_answer question)))
    ∧ ((q == 0)%Q ↔
       ∀ i question, Sample.three_questions !! i = Some question →
         Sample.three_answers !! i ≠ Some (charAt0 (Question.correct_answer question))).
Proof.
  apply (score_extremes Sample.three_questions Sample.three_answers). simpl. lia.
Defined.

(** Grading reads the answer record at the positions of the question set
    only: two records that agree there are graded alike, whatever else
    they hold (selections left from a longer set, for instance). *)
Theorem grade_reads_positions_of_the_set
    (data : list Question.t) (answers1 answers2 : gmap nat string) :
  (∀ i, (i < length data)%nat → answers1 !! i = answers2 !! i) →
  grade data answers1 = grade data answers2.
Proof.
  intros Hagree. rewrite !grade_unfold.
  assert (Hflags :
    imap (answered_correctly answers1) data = imap (answered_correctly answers2) data).
  { apply imap_ext. intros i question Hq. unfold answered_correctly.
    rewrite Hagree by (eapply lookup_lt_Some; exact Hq). reflexivity. }
  assert (Hentries : imap (entry_at answers1) data = imap (entry_at answers2) data).
  { apply imap_ext. intros i question Hq. unfold entry_at, answered_correctly.
    rewrite Hagree by (eapply lookup_lt_Some; exact Hq). reflexivity. }
  unfold count_correct. rewrite Hflags, Hentries. reflexivity.
Qed.

Lemma grade_reads_positions_of_the_set_witness :
  grade Sample.three_questions Sample.three_answers
  = grade Sample.three_questions (<[7%nat := "D"]> Sample.three_answers).
Proof.
  apply (grade_reads_positions_of_the_set Sample.three_questions).
  intros i Hi. simpl in Hi. rewrite lookup_insert_ne by lia. reflexivity.
Defined.

(** The per-question record follows the question set in order: texts and
    explanations are copied, the correct label is the first character of
    the correct answer, and the selections are those of the answer
    record. *)
Theorem grade_record_mirrors_the_set (data : list Question.t) (answers : gmap nat string) :
  QuestionResult.question <$> Attempt.questions (grade data answers)
  = Question.text <$> data
  ∧ QuestionResult.explanation <$> Attempt.questions (grade data answers)
    = Question.explanation <$> data
  ∧ QuestionResult.correct_answer <$> Attempt.questions (grade data answers)
    = (λ question, charAt0 (Question.correct_answer question)) <$> data
  ∧ QuestionResult.selected_option <$> Attempt.questions (grade data answers)
    = (λ i, answers !! i) <$> seq 0 (length data).
Proof.
  rewrite grade_unfold. simpl. rewrite !fmap_imap.
  repeat split.
  - rewrite <- imap_const. apply imap_ext. reflexivity.
  - rewrite <- imap_const. apply imap_ext. reflexivity.
  - rewrite <- imap_const. apply imap_ext. reflexivity.
  - apply list_eq. intros i.
    rewrite list_lookup_imap, list_lookup_fmap.
    destruct (data !! i) as [question|] eqn:Hq; simpl.
    + rewrite lookup_seq_lt by (eapply lookup_lt_Some; exact Hq). reflexivity.
    + rewrite lookup_seq_ge by (apply lookup_ge_None; exact Hq). reflexivity.
Qed.

(** Selecting an option and grading: the entry of that position records
    the letter of the option and is correct exactly when that letter is the
    first character of the correct answer; the entries of the other
    positions are what they were. *)
Theorem select_then_grade
    (d : Dashboard) (data : list Question.t) (i : nat) (question : Question.t)
    (option : string) :
  quizSubmitted d = false →
  data !! i = Some question →
  let before := Attempt.questions (grade data (selectedAnswers d)) in
  let after := Attempt.questions (grade data (selectedAnswers (handleAnswerSelect i option d))) in
  ∃ r : QuestionResult.t,
    after !! i = Some r
    ∧ QuestionResult.selected_option r = Some (charAt0 option)
    ∧ (QuestionResult.is_correct r = true
       ↔ charAt0 option = charAt0 (Question.correct_answer question))
    ∧ ∀ j, j ≠ i → after !! j = before !! j.
Proof.
  intros Hopen Hq before after. subst before after.
  unfold handleAnswerSelect. rewrite Hopen. simpl.
  rewrite !grade_unfold. simpl.
  exists (entry_at (<[i := charAt0 option]> (selectedAnswers d)) i question).
  split; [rewrite list_lookup_imap, Hq; reflexivity|].
  unfold entry_at, answered_correctly. simpl. rewrite lookup_insert_eq.
  split; [reflexivity|]. split.
  - rewrite bool_decide_eq_true. split; [intros [= H]; exact H|intros ->; reflexivity].
  - intros j Hj. rewrite !list_lookup_imap.
    destruct (data !! j); simpl; [|reflexivity].
    rewrite lookup_insert_ne by congruence. reflexivity.
Qed.

Lemma select_then_grade_witness :
  ∃ r : QuestionResult.t,
    Attempt.questions
      (grade Sample.three_questions
         (selectedAnswers
            (handleAnswerSelect 1 "B) y" (Sample.dashboard_with Sample.three_questions ∅))))
    !! 1%nat = Some r
    ∧ QuestionResult.is_correct r = true.
Proof.
  destruct (select_then_grade (Sample.dashboard_with Sample.three_questions ∅)
              Sample.three_questions 1
              {| Question.text := "Q2"; Question.options := ["A) x"; "B) y"];
                 Question.correct_answer := "B) y"; Question.explanation := "" |}
              "B) y" eq_refl eq_refl)
    as (r & Hr & _ & Hcorrect & _).
  exists r. split; [exact Hr|]. apply Hcorrect. reflexivity.
Defined.

(** Selections made after submission are ignored, and before submission
    they only ever add keys that were clicked. *)
Lemma select_all_keys (clicks : list (nat * string)) : ∀ (d : Dashboard) (n : nat),
  Forall (λ click, (click.1 < n)%nat) clicks →
  dom (selectedAnswers d) ⊆ set_seq 0 n →
  dom (selectedAnswers (select_all clicks d)) ⊆@{gset nat} set_seq 0 n.
Proof.
  induction clicks as [|[i option] clicks IH]; intros d n Hclicks Hdom; [exact Hdom|].
  inversion Hclicks as [|? ? Hi Hrest]; subst. simpl in Hi.
  unfold select_all. simpl. apply IH; [exact Hrest|].
  unfold handleAnswerSelect. destruct (quizSubmitted d); [exact Hdom|].
  simpl. rewrite dom_insert. apply union_least; [|exact Hdom].
  apply singleton_subseteq_l. apply elem_of_set_seq. lia.
Qed.

(** The submit button: starting from an empty answer record, after any
    clicks on options of the questions shown, the button is enabled only
    when every question has a selection (and no submission is running). *)
Theorem submit_enabled_means_all_answered
    (data : list Question.t) (clicks : list (nat * string)) (d : Dashboard) :
  selectedAnswers d = ∅ →
  Forall (λ click, (click.1 < length data)%nat) clicks →
  submit_disabled (select_all clicks d) data = false →
  isSubmittingQuiz (select_all clicks d) = false
  ∧ ∀ i, (i < length data)%nat → is_Some (selectedAnswers (select_all clicks d) !! i).
Proof.
  intros Hempty Hclicks Henabled.
  unfold submit_disabled in Henabled. apply orb_false_iff in Henabled as [Hsize Hidle].
  split; [exact Hidle|].
  apply Nat.ltb_ge in Hsize.
  assert (Hdom : dom (selectedAnswers (select_all clicks d))
                 ⊆@{gset nat} set_seq 0 (length data)).
  { apply select_all_keys; [exact Hclicks|]. rewrite Hempty, dom_empty. apply empty_subseteq. }
  assert (Heq : dom (selectedAnswers (select_all clicks d))
                =@{gset nat} set_seq 0 (length data)).
  { apply set_subseteq_size_eq; [exact Hdom|].
    rewrite size_set_seq, size_dom. exact Hsize. }
  intros i Hi. apply elem_of_dom. rewrite Heq. apply elem_of_set_seq. lia.
Qed.

Lemma submit_enabled_means_all_answered_witness :
  let d := select_all [(0%nat, "A) x"); (2%nat, "C) z"); (1%nat, "A) x")]
             (Sample.dashboard_with Sample.three_questions ∅) in
  isSubmittingQuiz d = false
  ∧ is_Some (selectedAnswers d !! 0%nat)
  ∧ is_Some (selectedAnswers d !! 1%nat)
  ∧ is_Some (selectedAnswers d !! 2%nat).
Proof.
  destruct (submit_enabled_means_all_answered Sample.three_questions
              [(0%nat, "A) x"); (2%nat, "C) z"); (1%nat, "A) x")]
              (Sample.dashboard_with Sample.three_questions ∅))
    as [Hidle Hall].
  - reflexivity.
  - repeat constructor; simpl; lia.
  - reflexivity.
  - split; [exact Hidle|]. repeat split; apply Hall; simpl; lia.
Defined.

(** ** The adapter and the request pipeline *)

(** [getFreshIdToken] returns in every state, whatever the provider and
    web storage do. A token it returns is the one the provider minted for
    the current principal, and it is then in the Credential Store; when it
    returns [null], web storage is as it was. *)
Theorem getFreshIdToken_contract (env : Env) (w : World) :
  ∃ r w',
    getFreshIdToken env w = (Return r, w')
    ∧ match r with
      | Some token =>
          (∃ u, auth_currentUser w = Some u
                ∧ getIdToken env u true (clock w) = Return token)
          ∧ credential_store w' = Some token
      | None => localStorage w' = localStorage w
      end.
Proof.
  unfold getFreshIdToken. js_unfold. simpl.
  destruct (auth_currentUser w) as [u|] eqn:Hu; simpl;
    [|eexists _, _; split; reflexivity].
  destruct (getIdToken env u true (clock w)) as [token|e] eqn:Hmint; simpl;
    [|eexists _, _; split; reflexivity].
  destruct (localStorage_fault env (S (clock w))); simpl;
    eexists _, _; (split; [reflexivity|]); simpl; [reflexivity|].
  split; [exists u; split; [reflexivity|exact Hmint]|].
  unfold credential_store. simpl. apply lookup_insert_eq.
Qed.

Lemma request_onFulfilled_location_frame (env : Env) config :
  preserves location_frame (request_onFulfilled env config).
Proof.
  intros w r w'.
  unfold request_onFulfilled, request_attach_token, attach_cached_token, set_Authorization.
  js_unfold. simpl. intros Hrun.
  repeat case_match; simplify_eq; split; reflexivity.
Qed.

(** With a principal known, a successful mint and web storage accepting
    the write, the request carries the fresh token (trimmed) and the
    Credential Store holds it as minted; a token cached earlier plays no
    part. *)
Theorem fresh_token_is_attached_and_stored
    (env : Env) (config : RequestConfig) (w : World) (u : User) (token : string) :
  auth_currentUser w = Some u →
  getIdToken env u true (clock w) = Return token →
  localStorage_fault env (S (clock w)) = None →
  ∃ w',
    request_onFulfilled env config w
    = (Return (with_Authorization ("Bearer " +:+ trim token) config), w')
    ∧ credential_store w' = Some token
    ∧ console w' = console w.
Proof.
  intros Hu Hmint Hst.
  unfold request_onFulfilled, request_attach_token, set_Authorization. js_unfold. simpl.
  rewrite Hu. simpl. rewrite Hmint. simpl. rewrite Hst. simpl.
  eexists. split; [reflexivity|]. split; [|reflexivity].
  unfold credential_store. simpl. apply lookup_insert_eq.
Qed.

Lemma fresh_token_is_attached_and_stored_witness :
  ∃ w',
    request_onFulfilled Sample.env_ok Sample.get_users_me Sample.world_signed_in
    = (Return (with_Authorization "Bearer fresh.jwt" Sample.get_users_me), w')
    ∧ credential_store w' = Some "fresh.jwt"
    ∧ console w' = [].
Proof.
  apply (fresh_token_is_attached_and_stored Sample.env_ok Sample.get_users_me
           Sample.world_signed_in Sample.alice "fresh.jwt"); reflexivity.
Defined.

(** When the mint succeeds but web storage refuses the write, the
    interceptor falls into its cached-token path: if the store can then
    be read and holds a non-empty value, that older value replaces the
    fresh token in the header; otherwise the header keeps the fresh
    token. Web storage is left as it was. *)
Theorem failed_write_falls_back_to_cache
    (env : Env) (config : RequestConfig) (w : World) (u : User) (token : string)
    (e : JsError) :
  auth_currentUser w = Some u →
  getIdToken env u true (clock w) = Return token →
  localStorage_fault env (S (clock w)) = Some e →
  ∃ w',
    request_onFulfilled env config w
    = (Return
         (match localStorage_fault env (S (S (clock w))), credential_store w with
          | None, Some (String a cached) =>
              with_Authorization ("Bearer " +:+ trim (String a cached))
                (with_Authorization ("Bearer " +:+ trim token) config)
          | _, _ => with_Authorization ("Bearer " +:+ trim token) config
          end), w')
    ∧ localStorage w' = localStorage w.
Proof.
  intros Hu Hmint Hst.
  unfold request_onFulfilled, request_attach_token, attach_cached_token, set_Authorization,
    credential_store.
  js_unfold. simpl.
  rewrite Hu. simpl. rewrite Hmint. simpl. rewrite Hst. simpl.
  destruct (localStorage_fault env (S (S (clock w)))); simpl;
    [eexists; split; reflexivity|].
  destruct (localStorage w !! TOKEN_KEY) as [[|a cached]|]; simpl;
    eexists; split; reflexivity.
Qed.

Lemma failed_write_falls_back_to_cache_witness :
  ∃ w',
    request_onFulfilled Scenario.env_write_refused Sample.get_users_me Sample.world_signed_in
    = (Return (with_Authorization "Bearer stale.jwt"
                 (with_Authorization "Bearer fresh.jwt" Sample.get_users_me)), w')
    ∧ localStorage w' = localStorage Sample.world_signed_in.
Proof.
  apply (failed_write_falls_back_to_cache Scenario.env_write_refused Sample.get_users_me
           Sample.world_signed_in Sample.alice "fresh.jwt" Scenario.quota_exceeded);
    reflexivity.
Defined.

Lemma response_onRejected_never_returns (env : Env) (err : JsError) (w : World) :
  ∃ e w', response_onRejected env err w = (Throw e, w').
Proof.
  unfold response_onRejected. js_unfold. simpl.
  repeat case_match; simplify_eq; eauto.
Qed.

Lemma response_onRejected_location (env : Env) (err : JsError) (w : World) :
  let w' := snd (response_onRejected env err w) in
  location_pathname w' = location_pathname w
  ∧ (location_href_assigned w' = location_href_assigned w
     ∨ location_href_assigned w' = "/login" :: location_href_assigned w).
Proof.
  unfold response_onRejected. js_unfold. simpl.
  repeat case_match; simplify_eq; simpl; auto.
Qed.

Lemma response_onRejected_unauthorized (env : Env) (err : JsError) (w : World) :
  is_unauthorized err →
  localStorage_fault env (clock w) = None →
  ∃ w',
    response_onRejected env err w = (Throw err, w')
    ∧ credential_store w' = None
    ∧ location_href_assigned w'
      = if includes "/login" (location_pathname w)
        then location_href_assigned w
        else "/login" :: location_href_assigned w.
Proof.
  intros (Hcode & r & Hr & H401) Hst.
  unfold response_onRejected. js_unfold. simpl.
  rewrite bool_decide_eq_false_2 by exact Hcode.
  rewrite Hr. simpl.
  rewrite bool_decide_eq_true_2 by exact H401.
  simpl. rewrite Hst. simpl.
  destruct (includes "/login" (location_pathname w)); simpl;
    (eexists; split; [reflexivity|]; split; [apply lookup_delete_eq|reflexivity]).
Qed.

(** The response error handler never turns a failure into a success: it
    always rejects, and with the error it received unless web storage
    itself raised during the clean-up. It changes web storage or assigns
    the location only for an error that carries a 401 response and does
    not have the timeout code, so a timed-out request never invalidates
    the session, whatever response it carries. *)
Theorem response_error_is_rethrown (env : Env) (err : JsError) (w : World) :
  ∃ e w',
    response_onRejected env err w = (Throw e, w')
    ∧ (e = err ∨ localStorage_fault env (clock w) = Some e)
    ∧ location_pathname w' = location_pathname w
    ∧ (is_unauthorized err
       ∨ (localStorage w' = localStorage w
          ∧ location_href_assigned w' = location_href_assigned w)).
Proof.
  unfold response_onRejected, is_unauthorized. js_unfold. simpl.
  destruct (bool_decide (code err = Some "ECONNABORTED")) eqn:Hcode; simpl.
  { eexists _, _. split; [reflexivity|]. simpl. auto. }
  apply bool_decide_eq_false in Hcode.
  destruct (response err) as [r|] eqn:Hr; simpl.
  - destruct (bool_decide (status r = 401)) eqn:H401; simpl.
    + apply bool_decide_eq_true in H401.
      destruct (localStorage_fault env (clock w)) as [e|] eqn:Hfault; simpl.
      * eexists _, _. split; [reflexivity|]. simpl. eauto 10.
      * destruct (includes "/login" (location_pathname w)); simpl;
          eexists _, _; (split; [reflexivity|]); simpl; eauto 10.
    + eexists _, _. split; [reflexivity|]. simpl. auto.
  - destruct (message err) as [m|]; simpl;
      [destruct (truthy m); [destruct (includes "Network Error" m)|]|]; simpl;
      eexists _, _; (split; [reflexivity|]); simpl; auto.
Qed.

(** The timeout branch on its own: store and location untouched even when
    the error carries a 401 response. *)
Example timed_out_unauthorized_is_not_invalidated :
  let w' := snd (response_onRejected Sample.env_ok Scenario.timed_out_401
                   Sample.world_signed_in) in
  credential_store w' = Some "  stale.jwt " ∧ location_href_assigned w' = [].
Proof. split; reflexivity. Qed.

Lemma api_request_rejected_run (env : Env) config w c' w1 err :
  request_onFulfilled env config w = (Return c', w1) →
  axios_dispatch env c' (clock w1) = Throw err →
  api_request env config w = response_onRejected env err (with_tick w1).
Proof.
  intros Hrun Hdispatch. rewrite (api_request_run env config w c' w1 Hrun).
  unfold promise_then, external. rewrite Hdispatch. reflexivity.
Qed.

(** A request that the backend rejects with 401 leaves the Credential
    Store empty when it has run, even though its own request phase may just
    have written a fresh token; the caller gets the error unchanged, and
    the location is assigned [/login] unless the path name contains
    [/login]. *)
Theorem rejected_request_empties_the_store
    (env : Env) (config : RequestConfig) (w : World) (err : JsError) :
  storage_reliable env →
  (∀ c t, axios_dispatch env c t = Throw err) →
  is_unauthorized err →
  ∃ w',
    api_request env config w = (Throw err, w')
    ∧ credential_store w' = None
    ∧ location_href_assigned w'
      = if includes "/login" (location_pathname w)
        then location_href_assigned w
        else "/login" :: location_href_assigned w.
Proof.
  intros Hst Hdispatch Herr.
  destruct (request_attach_token_never_throws env (config, w)) as ([] & [c' w1] & Hbody).
  pose proof (request_onFulfilled_run env config w _ c' w1 Hbody) as Hrun. simpl in Hrun.
  destruct (request_onFulfilled_location_frame env config w _ _ Hrun) as [Hpath Hhref].
  rewrite (api_request_rejected_run env config w c' w1 err Hrun (Hdispatch _ _)).
  destruct (response_onRejected_unauthorized env err (with_tick w1) Herr (Hst _))
    as (w' & Hrej & Hstore & Hnav).
  exists w'. split; [exact Hrej|]. split; [exact Hstore|].
  rewrite Hnav. simpl. rewrite Hpath, Hhref. reflexivity.
Qed.

Lemma rejected_request_empties_the_store_witness :
  ∃ w',
    api_request Scenario.env_backend_401 Sample.get_users_me Sample.world_signed_in
    = (Throw Sample.unauthorized, w')
    ∧ credential_store w' = None
    ∧ location_href_assigned w' = ["/login"].
Proof.
  apply (rejected_request_empties_the_store Scenario.env_backend_401 Sample.get_users_me
           Sample.world_signed_in Sample.unauthorized).
  - intros t. reflexivity.
  - intros c t. reflexivity.
  - split; [discriminate|]. eexists. split; reflexivity.
Defined.

(** The pipeline never navigates anywhere but to the login entry point,
    and at most once per request; it never changes the path name it
    reads. *)
Theorem api_request_navigates_to_login_only
    (env : Env) (config : RequestConfig) (w : World) :
  let w' := snd (api_request env config w) in
  location_pathname w' = location_pathname w
  ∧ (location_href_assigned w' = location_href_assigned w
     ∨ location_href_assigned w' = "/login" :: location_href_assigned w).
Proof.
  destruct (request_attach_token_never_throws env (config, w)) as ([] & [c' w1] & Hbody).
  pose proof (request_onFulfilled_run env config w _ c' w1 Hbody) as Hrun. simpl in Hrun.
  destruct (request_onFulfilled_location_frame env config w _ _ Hrun) as [Hpath Hhref].
  rewrite (api_request_run env config w c' w1 Hrun).
  unfold promise_then, external.
  destruct (axios_dispatch env c' (clock w1)) as [r|e]; simpl.
  - unfold response_onFulfilled. simpl. auto.
  - pose proof (response_onRejected_location env e (with_tick w1)) as [Hpath' Hnav].
    simpl in Hpath', Hnav. rewrite Hpath', Hpath. split; [reflexivity|].
    rewrite <- Hhref. exact Hnav.
Qed.

(** A response returned by the pipeline is the one the transport returned
    for the configuration the request interceptor produced; nothing is
    invalidated on that path: the world is the one the request phase left,
    one external call later. *)
Theorem returned_response_is_the_transports
    (env : Env) (config : RequestConfig) (w : World) (r : Response) :
  fst (api_request env config w) = Return r →
  ∃ c' w1,
    request_onFulfilled env config w = (Return c', w1)
    ∧ axios_dispatch env c' (clock w1) = Return r
    ∧ snd (api_request env config w) = with_tick w1.
Proof.
  destruct (request_attach_token_never_throws env (config, w)) as ([] & [c' w1] & Hbody).
  pose proof (request_onFulfilled_run env config w _ c' w1 Hbody) as Hrun. simpl in Hrun.
  rewrite (api_request_run env config w c' w1 Hrun).
  unfold promise_then, external.
  destruct (axios_dispatch env c' (clock w1)) as [r'|e] eqn:Hdispatch; simpl.
  - intros [= ->]. exists c', w1. split; [exact Hrun|]. split; [exact Hdispatch|reflexivity].
  - destruct (response_onRejected_never_returns env e (with_tick w1)) as (e' & w' & Hrej).
    rewrite Hrej. discriminate.
Qed.

Lemma returned_response_is_the_transports_witness :
  ∃ c' w1,
    request_onFulfilled Sample.env_ok Sample.get_users_me Sample.world_signed_in
    = (Return c', w1)
    ∧ axios_dispatch Sample.env_ok c' (clock w1) = Return Sample.ok_response
    ∧ snd (api_request Sample.env_ok Sample.get_users_me Sample.world_signed_in)
      = with_tick w1.
Proof.
  apply (returned_response_is_the_transports Sample.env_ok Sample.get_users_me
           Sample.world_signed_in Sample.ok_response).
  reflexivity.
Defined.

(** ** The session controller, further *)

(** Case analysis on the next answer of the provider or of web storage. *)
Ltac oracle_step :=
  match goal with
  | |- context [getIdToken ?e ?u ?f ?t] => destruct (getIdToken e u f t); simpl
  | |- context [localStorage_fault ?e ?t] => destruct (localStorage_fault e t); simpl
  end.

(** A successful [login] returns [true] and leaves in the Credential
    Store the token of its own mint, the last one written: the adapter's
    mint comes first and is overwritten (or has failed and was skipped). *)
Theorem login_stores_its_own_mint
    (env : Env) (w : World) (email password : string) (u : User) (token : string) :
  storage_reliable env →
  signInWithEmailAndPassword env email password (clock w) = Return (Some u) →
  getIdToken env u true
    (match getIdToken env u true (S (clock w)) with
     | Return _ => 3 + clock w
     | Throw _ => 2 + clock w
     end)%nat = Return token →
  ∃ w',
    login env email password w = (Return true, w')
    ∧ credential_store w' = Some token
    ∧ location_frame w w'.
Proof.
  intros Hst Hsign Hmint.
  unfold login, loginWithEmailPassword. js_unfold. simpl.
  rewrite Hsign. simpl.
  destruct (getIdToken env u true (S (clock w))) as [t1|e1]; simpl.
  - rewrite Hst. simpl. simpl in Hmint. rewrite Hmint. simpl. rewrite Hst. simpl.
    eexists. split; [reflexivity|]. split; [apply lookup_insert_eq|split; reflexivity].
  - simpl in Hmint. rewrite Hmint. simpl. rewrite Hst. simpl.
    eexists. split; [reflexivity|]. split; [apply lookup_insert_eq|split; reflexivity].
Qed.

Lemma login_stores_its_own_mint_witness :
  ∃ w',
    login Scenario.env_rotating "alice@example.com" "pw" Sample.world_starting
    = (Return true, w')
    ∧ credential_store w' = Some "jwt-3"
    ∧ location_frame Sample.world_starting w'.
Proof.
  apply (login_stores_its_own_mint Scenario.env_rotating Sample.world_starting
           "alice@example.com" "pw" Sample.alice "jwt-3").
  - intros t. reflexivity.
  - reflexivity.
  - reflexivity.
Defined.

(** A failed sign-in is re-thrown by [login] unchanged. No mint is
    attempted (the sign-in call is the only external call made), web
    storage, the location and the provider's cells are untouched; the
    error is logged once by the adapter and once by the controller. *)
Theorem failed_sign_in_only_logs
    (env : Env) (w : World) (email password : string) (e : JsError) :
  signInWithEmailAndPassword env email password (clock w) = Throw e →
  ∃ w',
    login env email password w = (Throw e, w')
    ∧ localStorage w' = localStorage w
    ∧ clock w' = S (clock w)
    ∧ location_frame w w'
    ∧ provider_frame w w'
    ∧ console w'
      = {| level := LevelError;
           args := [ArgString "AuthContext: Firebase login error:"; ArgError e] |}
        :: {| level := LevelError;
              args := [ArgString "Firebase login error:";
                       ArgOption (code e); ArgOption (message e)] |}
        :: {| level := LevelLog;
              args := [ArgString ("AuthContext: Login attempt with email: " +:+ email)] |}
        :: console w.
Proof.
  intros He. unfold login, loginWithEmailPassword. js_unfold. simpl.
  rewrite He. simpl. eexists. split; [reflexivity|]. simpl. repeat split.
Qed.

Lemma failed_sign_in_only_logs_witness :
  ∃ w',
    login Scenario.env_wrong_password "alice@example.com" "nope" Sample.world_signed_in
    = (Throw Scenario.wrong_password, w')
    ∧ credential_store w' = Some "  stale.jwt "
    ∧ clock w' = 1%nat.
Proof.
  destruct (failed_sign_in_only_logs Scenario.env_wrong_password Sample.world_signed_in
              "alice@example.com" "nope" Scenario.wrong_password eq_refl)
    as (w' & Hrun & Hstore & Hclock & _).
  exists w'. split; [exact Hrun|]. split; [|exact Hclock].
  unfold credential_store. rewrite Hstore. reflexivity.
Defined.

(** A failed sign-up is re-thrown by [register] unchanged, in the same
    way: no profile update and no mint are attempted, and nothing but the
    console changes. *)
Theorem failed_sign_up_only_logs
    (env : Env) (w : World) (email password displayName : string) (e : JsError) :
  createUserWithEmailAndPassword env email password (clock w) = Throw e →
  ∃ w',
    register env email password displayName w = (Throw e, w')
    ∧ localStorage w' = localStorage w
    ∧ clock w' = S (clock w)
    ∧ location_frame w w'
    ∧ provider_frame w w'
    ∧ console w'
      = {| level := LevelError;
           args := [ArgString "AuthContext: Registration error:"; ArgError e] |}
        :: {| level := LevelError;
              args := [ArgString "Firebase registration error:"; ArgError e] |}
        :: {| level := LevelLog;
              args := [ArgString ("AuthContext: Registration attempt for email: "
                                  +:+ email)] |}
        :: console w.
Proof.
  intros He. unfold register, registerWithEmailPassword. js_unfold. simpl.
  rewrite He. simpl. eexists. split; [reflexivity|]. simpl. repeat split.
Qed.

Lemma failed_sign_up_only_logs_witness :
  ∃ w',
    register Scenario.env_wrong_password "alice@example.com" "pw" "Alice"
      Sample.world_signed_in
    = (Throw Scenario.wrong_password, w')
    ∧ credential_store w' = Some "  stale.jwt "
    ∧ clock w' = 1%nat.
Proof.
  destruct (failed_sign_up_only_logs Scenario.env_wrong_password Sample.world_signed_in
              "alice@example.com" "pw" "Alice" Scenario.wrong_password eq_refl)
    as (w' & Hrun & Hstore & Hclock & _).
  exists w'. split; [exact Hrun|]. split; [|exact Hclock].
  unfold credential_store. rewrite Hstore. reflexivity.
Defined.

(** Once the sign-up call has succeeded, [register] throws in one case
    only: a display name was given and the profile update failed; that
    error is re-thrown and web storage is untouched (the account exists
    all the same). In every other case [register] returns a boolean,
    whatever the mints and web storage do, and [true] only with a token in
    the Credential Store. *)
Theorem register_after_sign_up
    (env : Env) (w : World) (email password displayName : string) (u : User) :
  createUserWithEmailAndPassword env email password (clock w) = Return (Some u) →
  match (if truthy displayName
         then updateProfile env (Some u) displayName (S (clock w))
         else Return tt) with
  | Throw e =>
      fst (register env email password displayName w) = Throw e
      ∧ localStorage (snd (register env email password displayName w)) = localStorage w
  | Return _ =>
      ∃ b : bool,
        fst (register env email password displayName w) = Return b
        ∧ (b = true →
           is_Some (credential_store (snd (register env email password displayName w))))
  end.
Proof.
  intros Hsign.
  unfold register, registerWithEmailPassword, credential_store. js_unfold. simpl.
  rewrite Hsign. simpl.
  destruct (truthy displayName); simpl.
  - destruct (updateProfile env (Some u) displayName (S (clock w))) as [[]|e]; simpl;
      [|split; reflexivity].
    repeat oracle_step;
      (eexists; split; [reflexivity|]); intros; try discriminate;
      simpl; rewrite lookup_insert_eq; eauto.
  - repeat oracle_step;
      (eexists; split; [reflexivity|]); intros; try discriminate;
      simpl; rewrite lookup_insert_eq; eauto.
Qed.

Lemma register_after_sign_up_witness :
  fst (register Scenario.env_profile_refused "alice@example.com" "pw" "Alice"
         Sample.world_starting)
  = Throw Sample.network_failed
  ∧ localStorage
      (snd (register Scenario.env_profile_refused "alice@example.com" "pw" "Alice"
              Sample.world_starting))
    = localStorage Sample.world_starting.
Proof.
  apply (register_after_sign_up Scenario.env_profile_refused Sample.world_starting
           "alice@example.com" "pw" "Alice" Sample.alice).
  reflexivity.
Defined.

(** What handling one notification does to the provider's cells: the
    principal is recorded at once; the handler returns and turns [loading]
    off, except for a null principal with web storage raising, where it
    throws before it gets there. *)
Lemma onAuthStateChanged_next_outcome (env : Env) (user : option User) (w : World) :
  ∃ r w',
    onAuthStateChanged_next env user w = (r, w')
    ∧ firebaseUser w' = user
    ∧ match user, localStorage_fault env (clock w) with
      | None, Some e => r = Throw e ∧ loading w' = loading w
      | _, _ => r = Return tt ∧ loading w' = false
      end.
Proof.
  unfold onAuthStateChanged_next, api_get.
  destruct user as [u|]; js_unfold; simpl.
  - destruct (getIdToken env u true (clock w)); simpl.
    + destruct (localStorage_fault env (S (clock w))); simpl.
      * eexists _, _. split; [reflexivity|]. simpl.
        destruct (localStorage_fault env (clock w)); repeat split.
      * match goal with |- context [api_request env ?c ?w0] =>
          destruct (api_request env c w0) as [[resp|e] w1] eqn:Hreq
        end;
        apply api_request_provider_frame in Hreq; destruct Hreq as [Hu Hl];
        simpl in Hu, Hl;
        eexists _, _; (split; [reflexivity|]); simpl;
        (split; [exact Hu|]);
        destruct (localStorage_fault env (clock w)); repeat split.
    + eexists _, _. split; [reflexivity|]. simpl.
      destruct (localStorage_fault env (clock w)); repeat split.
  - destruct (localStorage_fault env (clock w)); simpl;
      eexists _, _; (split; [reflexivity|]); simpl; repeat split.
Qed.

Lemma handle_event_outcome (env : Env) (ev : AuthEvent) (w : World) :
  let w' := snd (handle_event env ev w) in
  (loading w = false → loading w' = false)
  ∧ (storage_reliable env → loading w' = false)
  ∧ match ev with
    | PrincipalChanged user => firebaseUser w' = user
    | ObserverError _ => firebaseUser w' = firebaseUser w
    end.
Proof.
  destruct ev as [user|e]; simpl.
  - destruct (onAuthStateChanged_next_outcome env user w) as (r & w' & Hrun & Hu & Hcase).
    rewrite Hrun. simpl. split; [|split; [|exact Hu]].
    + intros Hl. destruct user; [apply Hcase|].
      destruct (localStorage_fault env (clock w)); destruct Hcase as [_ Hl']; congruence.
    + intros Hst. rewrite Hst in Hcase. destruct user; apply Hcase.
  - repeat split.
Qed.

(** Whatever notifications and observer errors arrive, and whatever the
    collaborators answer while they are handled, the session state does
    not go back to unknown once it has left it. *)
Theorem session_state_never_reverts_to_unknown
    (env : Env) (events : list AuthEvent) (w : World) :
  sessionState w ≠ unknown →
  sessionState (deliver env events w) ≠ unknown.
Proof.
  assert (Hknown : ∀ w0, sessionState w0 ≠ unknown ↔ loading w0 = false).
  { intros w0. unfold sessionState.
    destruct (loading w0); [|destruct (firebaseUser w0)]; split; congruence. }
  rewrite !Hknown. revert w.
  induction events as [|ev events IH]; intros w Hl; [exact Hl|].
  simpl. apply IH.
  destruct (handle_event_outcome env ev w) as (Hkeep & _ & _). exact (Hkeep Hl).
Qed.

Lemma session_state_never_reverts_to_unknown_witness :
  sessionState
    (deliver Sample.env_hostile
       [PrincipalChanged None; ObserverError Sample.network_failed;
        PrincipalChanged (Some Sample.alice)]
       Sample.world_signed_in)
  ≠ unknown.
Proof.
  apply (session_state_never_reverts_to_unknown Sample.env_hostile).
  discriminate.
Defined.

(** With web storage accessible, the session state after a notification
    is decided by that notification alone: authenticated for a principal,
    unauthenticated for none, whatever came before, the unknown start
    included. *)
Theorem latest_notification_decides_session_state
    (env : Env) (events : list AuthEvent) (user : option User) (w : World) :
  storage_reliable env →
  sessionState (deliver env (events ++ [PrincipalChanged user]) w)
  = match user with
    | Some _ => authenticated
    | None => unauthenticated
    end.
Proof.
  intros Hst. revert w.
  induction events as [|ev events IH]; intros w; [|exact (IH _)].
  simpl.
  destruct (handle_event_outcome env (PrincipalChanged user) w) as (_ & Hl & Hu).
  simpl in Hl, Hu. unfold sessionState. rewrite (Hl Hst), Hu. reflexivity.
Qed.

Lemma latest_notification_decides_session_state_witness :
  sessionState
    (deliver Sample.env_ok
       ([PrincipalChanged (Some Sample.alice)] ++ [PrincipalChanged None])
       Sample.world_starting)
  = unauthenticated.
Proof.
  apply (latest_notification_decides_session_state Sample.env_ok
           [PrincipalChanged (Some Sample.alice)] None Sample.world_starting).
  intros t. reflexivity.
Defined.

(** The one way to stay in the unknown state: the first notification
    carries no principal and web storage raises on the removal of the
    token. The handler throws before it turns [loading] off, and the
    protected routes keep rendering nothing. *)
Theorem blocked_storage_keeps_session_unknown
    (env : Env) (w : World) (e : JsError) (page : Element) :
  sessionState w = unknown →
  localStorage_fault env (clock w) = Some e →
  fst (onAuthStateChanged_next env None w) = Throw e
  ∧ sessionState (snd (onAuthStateChanged_next env None w)) = unknown
  ∧ protected_route (snd (onAuthStateChanged_next env None w)) page = Nothing.
Proof.
  intros Hunknown Hfault.
  assert (Hloading : loading w = true).
  { unfold sessionState in Hunknown.
    destruct (loading w); [reflexivity|destruct (firebaseUser w); discriminate]. }
  destruct (onAuthStateChanged_next_outcome env None w) as (r & w' & Hrun & _ & Hcase).
  rewrite Hfault in Hcase. destruct Hcase as [-> Hl].
  rewrite Hrun. simpl.
  unfold protected_route, AuthProvider, sessionState. rewrite Hl, Hloading.
  repeat split.
Qed.

Lemma blocked_storage_keeps_session_unknown_witness :
  sessionState (snd (onAuthStateChanged_next Sample.env_hostile None Sample.world_starting))
  = unknown.
Proof.
  apply (blocked_storage_keeps_session_unknown Sample.env_hostile Sample.world_starting
           {| code := None; response := None;
              message := Some "SecurityError: The operation is insecure." |}
           (Page "Dashboard"));
    reflexivity.
Defined.



Lemma ProtectedRoute_loading_branch_dead_witness :
  ProtectedRoute (Page "Dashboard") (AuthProvider_value Sample.world_starting)
  ≠ LoadingIndicator.
Proof.
  apply (ProtectedRoute_loading_branch_dead Sample.world_starting (Page "Dashboard")).
  discriminate.
Defined.

(** ** Submitting the practice quiz *)

(** [handleQuizSubmit] returns in every state, whatever the pipeline
    does: it leaves the question set, the selections and the submitting
    flag as they were, and when a submission is already running, or the
    content shown is not a question set, it changes nothing at all and
    makes no request. *)
Theorem handleQuizSubmit_always_returns (env : Env) (d : Dashboard) (w : World) :
  ∃ d' w',
    handleQuizSubmit env (d, w) = (Return tt, (d', w'))
    ∧ isSubmittingQuiz d' = isSubmittingQuiz d
    ∧ generatedContent d' = generatedContent d
    ∧ selectedAnswers d' = selectedAnswers d
    ∧ (isSubmittingQuiz d = true ∨ (∀ quiz, generatedContent d ≠ Some (ContentQuestions quiz)) →
       d' = d ∧ w' = w).
Proof.
  unfold handleQuizSubmit. js_unfold. simpl.
  destruct (isSubmittingQuiz d) eqn:Hbusy; simpl.
  { exists d, w. rewrite Hbusy. repeat split. }
  destruct (generatedContent d) as [[quiz| |]|] eqn:Hcontent; simpl;
    try (exists d, w; rewrite Hbusy, Hcontent; repeat split; fail).
  assert (Hguard :
    ¬ (false = true ∨ ∀ quiz0, Some (ContentQuestions quiz) ≠ Some (ContentQuestions quiz0))).
  { intros [Hb|Hc]; [discriminate|exact (Hc quiz eq_refl)]. }
  destruct (api_post env "/quizzes/practice/attempt" (grade quiz (selectedAnswers d)) w)
    as [[resp|e] w1]; simpl;
    eexists _, _; (split; [reflexivity|]); simpl;
    (split; [congruence|]); (split; [congruence|]); (split; [reflexivity|]);
    intros Hg; destruct (Hguard Hg).
Qed.

(** What a submission records. When the post is fulfilled: the quiz is
    marked submitted, the results are the graded attempt under the
    attempt id of the response, and the new attempt heads the recent
    list, which keeps at most five entries. When the post is rejected:
    only the error message changes. *)
Theorem handleQuizSubmit_records_the_attempt
    (env : Env) (d : Dashboard) (w : World) (quiz : list Question.t) :
  isSubmittingQuiz d = false →
  generatedContent d = Some (ContentQuestions quiz) →
  let attempt := grade quiz (selectedAnswers d) in
  ∃ d' w',
    handleQuizSubmit env (d, w) = (Return tt, (d', w'))
    ∧ match fst (api_post env "/quizzes/practice/attempt" attempt w) with
      | Return response =>
          quizSubmitted d' = true
          ∧ quizResults d'
            = Some {| QuizResults.id := data response !! "attempt_id";
                      QuizResults.score := Attempt.score attempt;
                      QuizResults.questions := Attempt.questions attempt |}
          ∧ (RecentQuiz.id <$> head (recentQuizzes d')) = Some (data response !! "attempt_id")
          ∧ (RecentQuiz.score <$> head (recentQuizzes d')) = Some (Attempt.score attempt)
          ∧ tail (recentQuizzes d') = take 4 (recentQuizzes d)
          ∧ (length (recentQuizzes d') ≤ 5)%nat
          ∧ error d' = error d
      | Throw _ =>
          quizSubmitted d' = quizSubmitted d
          ∧ quizResults d' = quizResults d
          ∧ recentQuizzes d' = recentQuizzes d
          ∧ error d' = "Failed to submit quiz. Please try again."
      end.
Proof.
  intros Hidle Hcontent attempt. subst attempt.
  unfold handleQuizSubmit. js_unfold. simpl.
  rewrite Hidle, Hcontent. simpl.
  destruct (api_post env "/quizzes/practice/attempt" (grade quiz (selectedAnswers d)) w)
    as [[resp|e] w1]; simpl;
    eexists _, _; (split; [reflexivity|]); simpl; repeat split.
  rewrite length_take. lia.
Qed.

Lemma handleQuizSubmit_records_the_attempt_witness :
  ∃ d' w',
    handleQuizSubmit Sample.env_hostile
      (Sample.dashboard_with Sample.three_questions Sample.three_answers,
       Sample.world_signed_in)
    = (Return tt, (d', w'))
    ∧ quizSubmitted d' = false
    ∧ quizResults d' = None
    ∧ recentQuizzes d' = []
    ∧ error d' = "Failed to submit quiz. Please try again.".
Proof.
  apply (handleQuizSubmit_records_the_attempt Sample.env_hostile
           (Sample.dashboard_with Sample.three_questions Sample.three_answers)
           Sample.world_signed_in Sample.three_questions);
    reflexivity.
Defined.

(** ** The login page *)

(** [handleSubmit] of the login page returns in every state. With a
    blank field it makes no login attempt at all: the world is untouched
    and the form asks for the fields. Otherwise it ends with [isLoading]
    off, and the form shows an error message exactly when [login] did not
    return [true]: on [true] the message is cleared and the navigation to
    the dashboard is scheduled, on [false] or on any thrown error a
    non-empty message is set and nothing is scheduled. *)
Theorem login_page_outcome (env : Env) (isCloudflare : bool) (f : LoginForm.t) (w : World) :
  ∃ f' w',
    handleSubmit env isCloudflare (f, w) = (Return tt, (f', w'))
    ∧ if negb (truthy (LoginForm.email f)) || negb (truthy (LoginForm.password f))
      then f' = LoginForm_setError "Please fill in all fields" f ∧ w' = w
      else
        LoginForm.isLoading f' = false
        ∧ ∃ w0,
            localStorage w0 = localStorage w ∧ clock w0 = clock w
            ∧ match fst (login env (LoginForm.email f) (LoginForm.password f) w0) with
              | Return true =>
                  LoginForm.error f' = ""
                  ∧ LoginForm.timers f' = (100%nat, "/", true) :: LoginForm.timers f
              | _ =>
                  LoginForm.error f' ≠ ""
                  ∧ LoginForm.timers f' = LoginForm.timers f
              end.
Proof.
  unfold handleSubmit. js_unfold. simpl.
  destruct (negb (truthy (LoginForm.email f)) || negb (truthy (LoginForm.password f)));
    simpl; [eexists _, _; split; [reflexivity|split; reflexivity]|].
  match goal with |- context [login env ?e ?p ?w0] =>
    destruct (login env e p w0) as [[[|]|err] w1] eqn:Hlogin
  end; simpl.
  - eexists _, _. split; [reflexivity|]. simpl. split; [reflexivity|].
    eexists. split; [|split; [|rewrite Hlogin; simpl; split; reflexivity]]; reflexivity.
  - eexists _, _. split; [reflexivity|]. simpl. split; [reflexivity|].
    eexists. split; [|split; [|rewrite Hlogin; simpl; split; [discriminate|reflexivity]]];
      reflexivity.
  - unfold handleSubmit_catch. js_unfold. simpl.
    destruct (truthy_opt (code err)); simpl.
    + eexists _, _. split; [reflexivity|]. simpl. split; [reflexivity|].
      eexists. split; [|split; [|rewrite Hlogin; simpl; split; [|reflexivity]]];
        try reflexivity.
      unfold firebase_error_message.
      repeat (destruct (String.eqb _ _); [discriminate|]). discriminate.
    + destruct (response err) as [r|]; simpl.
      * eexists _, _. split; [reflexivity|]. simpl. split; [reflexivity|].
        eexists. split; [|split; [|rewrite Hlogin; simpl; split; [discriminate|reflexivity]]];
          reflexivity.
      * eexists _, _. split; [reflexivity|]. simpl. split; [reflexivity|].
        eexists. split; [|split; [|rewrite Hlogin; simpl; split; [discriminate|reflexivity]]];
          reflexivity.
Qed.

(** A wrong password ends as the message written for that error code. *)
Example login_page_wrong_password :
  LoginForm.error
    (fst (snd (handleSubmit Scenario.env_wrong_password false
                 ({| LoginForm.email := "alice@example.com"; LoginForm.password := "nope";
                     LoginForm.error := ""; LoginForm.isLoading := false;
                     LoginForm.timers := [] |},
                  Sample.world_starting))))
  = "Incorrect password for this account.".
Proof. reflexivity. Qed.

(** ** Cleaning answers and options *)

Section Strings.

Import Clean.

Lemma dropWhile_app (p : ascii → bool) (w rest : string) :
  all_chars p w = true →
  starts_with p rest = false →
  dropWhile p (w +:+ rest) = rest.
Proof.
  intros Hall Hstop. induction w as [|c w IH]; simpl in *.
  - destruct rest as [|d rest]; [reflexivity|]. simpl in Hstop. simpl. rewrite Hstop. reflexivity.
  - apply andb_true_iff in Hall as [Hc Hall]. rewrite Hc. apply IH. exact Hall.
Qed.

Lemma trimStart_dropWhile (s : string) : trimStart s = dropWhile isWhiteSpace s.
Proof. induction s as [|c s IH]; simpl; [reflexivity|]. rewrite IH. reflexivity. Qed.

Lemma trimStart_starts (s : string) : starts_with isWhiteSpace (trimStart s) = false.
Proof.
  induction s as [|c s IH]; simpl; [reflexivity|].
  destruct (isWhiteSpace c) eqn:Hc; [exact IH|]. simpl. exact Hc.
Qed.

Lemma trimStart_fixed (s : string) :
  starts_with isWhiteSpace s = false → trimStart s = s.
Proof. destruct s as [|c s]; simpl; [reflexivity|]. intros ->. reflexivity. Qed.

Lemma trimStart_idempotent (s : string) : trimStart (trimStart s) = trimStart s.
Proof. apply trimStart_fixed, trimStart_starts. Qed.

(** [trimEnd] keeps the first code unit of a string that does not start
    with white space. *)
Lemma trimEnd_starts (s : string) :
  starts_with isWhiteSpace s = false → starts_with isWhiteSpace (trimEnd s) = false.
Proof.
  destruct s as [|c s]; simpl; [reflexivity|]. intros Hc.
  destruct (trimEnd s); simpl; [rewrite Hc; simpl|]; exact Hc.
Qed.

Lemma trimEnd_idempotent (s : string) : trimEnd (trimEnd s) = trimEnd s.
Proof.
  induction s as [|c s IH]; simpl; [reflexivity|].
  destruct (trimEnd s) as [|d t] eqn:Ht.
  - destruct (isWhiteSpace c) eqn:Hc; simpl; [reflexivity|]. rewrite Hc. reflexivity.
  - change (trimEnd (String c (String d t)))
      with (match trimEnd (String d t) with
            | EmptyString => if isWhiteSpace c then EmptyString else String c EmptyString
            | u => String c u
            end).
    rewrite IH. reflexivity.
Qed.

Lemma trim_idempotent (s : string) : trim (trim s) = trim s.
Proof.
  unfold trim.
  rewrite (trimStart_fixed (trimEnd (trimStart s)))
    by apply trimEnd_starts, trimStart_starts.
  apply trimEnd_idempotent.
Qed.

Lemma trim_dropWhile (s : string) : trim (dropWhile isWhiteSpace s) = trim s.
Proof. unfold trim. rewrite <- trimStart_dropWhile, trimStart_idempotent. reflexivity. Qed.

Lemma split_lines_nonempty (s : string) : split_lines s ≠ [].
Proof.
  induction s as [|c s IH]; simpl; [discriminate|].
  destruct (Ascii.eqb c "010"); [discriminate|].
  destruct (split_lines s); discriminate.
Qed.

(** Joining the lines of a string gives the string back. *)
Lemma join_split_lines (s : string) : join_lines (split_lines s) = s.
Proof.
  induction s as [|c s IH]; simpl; [reflexivity|].
  pose proof (split_lines_nonempty s) as Hne.
  destruct (split_lines s) as [|line lines]; [congruence|].
  destruct (Ascii.eqb c "010") eqn:Hc.
  - apply Ascii.eqb_eq in Hc. subst c.
    change (join_lines (EmptyString :: line :: lines))
      with (String "010" (join_lines (line :: lines))).
    rewrite IH. reflexivity.
  - destruct lines as [|line' lines]; simpl in *; rewrite <- IH; reflexivity.
Qed.

Lemma split_lines_first (first rest : string) :
  all_chars (λ c, negb (isNewline c)) first = true →
  split_lines (first +:+ String "010" rest) = first :: split_lines rest.
Proof.
  intros Hall. induction first as [|c first IH]; simpl in *; [reflexivity|].
  apply andb_true_iff in Hall as [Hc Hall]. unfold isNewline in Hc.
  apply negb_true_iff in Hc. rewrite Hc, (IH Hall). reflexivity.
Qed.

Lemma includes_newline (first rest : string) :
  includes (String "010" EmptyString) (first +:+ String "010" rest) = true.
Proof.
  induction first as [|c first IH]; simpl.
  - destruct rest; reflexivity.
  - rewrite IH. apply orb_true_r.
Qed.

Lemma prefix_char_ne (a c : ascii) (s : string) :
  a ≠ c → String.prefix (String a EmptyString) (String c s) = false.
Proof.
  intros Hne. simpl. destruct (ascii_dec a c); [contradiction|reflexivity].
Qed.

Lemma includes_newline_none (s : string) :
  all_chars (λ c, negb (isNewline c)) s = true →
  includes (String "010" EmptyString) s = false.
Proof.
  induction s as [|c s IH]; [reflexivity|]. intros Hall.
  simpl in Hall. apply andb_true_iff in Hall as [Hc Hall]. unfold isNewline in Hc.
  apply negb_true_iff, Ascii.eqb_neq in Hc.
  change (includes (String "010" EmptyString) (String c s))
    with (String.prefix (String "010" EmptyString) (String c s)
          || includes (String "010" EmptyString) s).
  rewrite prefix_char_ne by congruence. rewrite (IH Hall). reflexivity.
Qed.

Lemma after_first_app (label text : string) :
  all_chars (λ c, negb (isClosingParen c)) label = true →
  after_first ")" (label +:+ String ")" text) = Some text
  ∧ after_first ")" label = None.
Proof.
  intros Hall. induction label as [|c label IH]; simpl in *; [split; reflexivity|].
  apply andb_true_iff in Hall as [Hc Hall]. unfold isClosingParen in Hc.
  apply negb_true_iff in Hc. rewrite Hc. exact (IH Hall).
Qed.

End Strings.

(** [formatAnswer] removes one label: for an answer made of a letter or
    digit, one or more separators (white space, closing parenthesis, dot,
    colon, hyphen) and a text that does not start with a separator, the
    result is the text, trimmed. *)
Theorem formatAnswer_removes_the_label (label : ascii) (separators text : string) :
  Clean.isAlnum label = true →
  separators ≠ "" →
  Clean.all_chars Clean.isSeparator separators = true →
  Clean.starts_with Clean.isSeparator text = false →
  Clean.formatAnswer (Some (String label (separators +:+ text))) = trim text.
Proof.
  intros Hlabel Hne Hseps Htext.
  destruct separators as [|d separators]; [congruence|].
  simpl in Hseps. apply andb_true_iff in Hseps as [Hd Hseps].
  unfold Clean.formatAnswer, Clean.strip_answer_label. simpl.
  rewrite Hlabel, Hd. simpl.
  rewrite (dropWhile_app _ _ _ Hseps Htext). apply trim_dropWhile.
Qed.

Lemma formatAnswer_removes_the_label_witness :
  Clean.formatAnswer (Some "B) - Paris ") = "Paris".
Proof.
  apply (formatAnswer_removes_the_label "B" ") - " "Paris "); [reflexivity| |reflexivity..].
  discriminate.
Defined.

(** Whatever the answer, what [formatAnswer] returns carries no
    surrounding white space: trimming it again changes nothing. A missing
    or empty answer gives the empty string. *)
Lemma formatAnswer_result_is_trimmed (answer : option string) :
  trim (Clean.formatAnswer answer) = Clean.formatAnswer answer
  ∧ Clean.formatAnswer None = ""
  ∧ Clean.formatAnswer (Some "") = "".
Proof.
  split; [|split; reflexivity].
  destruct answer as [a|]; [|reflexivity].
  unfold Clean.formatAnswer. destruct (truthy a); [apply trim_idempotent|reflexivity].
Qed.

(** [cleanOptionText] on an option without line break: the whole leading
    run of letters and digits goes, then one delimiter (closing
    parenthesis, dot, colon, hyphen) if there is one, then white space. A
    label such as [A)] is removed, and so is the first word of an option
    that has no label; a one-word option comes out empty. *)
Theorem cleanOptionText_removes_the_leading_word (word rest : string) :
  word ≠ "" →
  Clean.all_chars Clean.isAlnum word = true →
  Clean.starts_with Clean.isAlnum rest = false →
  Clean.all_chars (λ c, negb (Clean.isNewline c)) (word +:+ rest) = true →
  Clean.cleanOptionText (Some (word +:+ rest))
  = trim (match rest with
          | String d rest' => if Clean.isDelimiter d then rest' else rest
          | EmptyString => EmptyString
          end).
Proof.
  intros Hne Hword Hrest Hlines.
  unfold Clean.cleanOptionText. rewrite (includes_newline_none _ Hlines).
  destruct word as [|c word]; [congruence|].
  simpl in Hword. apply andb_true_iff in Hword as [Hc Hword].
  unfold Clean.strip_option_label. simpl. rewrite Hc.
  rewrite (dropWhile_app _ _ _ Hword Hrest).
  destruct rest as [|d rest']; [reflexivity|].
  destruct (Clean.isDelimiter d); apply trim_dropWhile.
Qed.

Lemma cleanOptionText_removes_the_leading_word_witness :
  Clean.cleanOptionText (Some "A) Paris") = "Paris"
  ∧ Clean.cleanOptionText (Some "Paris is nice") = "is nice"
  ∧ Clean.cleanOptionText (Some "Paris") = "".
Proof.
  split; [|split].
  - apply (cleanOptionText_removes_the_leading_word "A" ") Paris");
      [discriminate|reflexivity..].
  - apply (cleanOptionText_removes_the_leading_word "Paris" " is nice");
      [discriminate|reflexivity..].
  - apply (cleanOptionText_removes_the_leading_word "Paris" "");
      [discriminate|reflexivity..].
Defined.

(** [cleanOptionText] on an option with a line break: the first line (the
    label) goes and everything after the first line break is kept,
    trimmed, later line breaks included. *)
Theorem cleanOptionText_keeps_what_follows_the_first_line (first rest : string) :
  Clean.all_chars (λ c, negb (Clean.isNewline c)) first = true →
  Clean.cleanOptionText (Some (first +:+ String "010" rest)) = trim rest.
Proof.
  intros Hfirst. unfold Clean.cleanOptionText.
  rewrite includes_newline, (split_lines_first _ _ Hfirst). simpl.
  rewrite join_split_lines. reflexivity.
Qed.

Lemma cleanOptionText_keeps_what_follows_the_first_line_witness :
  Clean.cleanOptionText (Some ("A" +:+ String "010" " Paris ")) = "Paris".
Proof.
  apply (cleanOptionText_keeps_what_follows_the_first_line "A" " Paris ").
  reflexivity.
Defined.

(** The option text of the dashboard: what follows the first closing
    parenthesis, trimmed; the whole option, trimmed, when it has none. *)
Theorem option_text_drops_the_label (label text : string) :
  Clean.all_chars (λ c, negb (Clean.isClosingParen c)) label = true →
  option_text (label +:+ String ")" text) = trim text
  ∧ option_text label = trim label.
Proof.
  intros Hlabel. unfold option_text.
  destruct (after_first_app label text Hlabel) as [-> ->]. split; reflexivity.
Qed.

Lemma option_text_drops_the_label_witness :
  option_text "B) y (see above)" = "y (see above)" ∧ option_text "B" = "B".
Proof.
  apply (option_text_drops_the_label "B" " y (see above)"). reflexivity.
Defined.

(** ** Moving between the questions of a quiz *)

(** Whatever the user clicks, the current question index stays a position
    of the quiz, and it is the position reached by moving one step per
    click with the ends blocking: Next goes to the next question and does
    nothing at the last one, Previous goes to the previous question and
    does nothing at the first. *)
Theorem question_index_stays_in_range (n : nat) (ms : list QuizAttempt.Move) (start : nat) :
  (start < n)%nat →
  (QuizAttempt.moves n ms start < n)%nat
  ∧ QuizAttempt.moves n ms start
    = foldl (λ i m, match m with
                    | QuizAttempt.Next => Nat.min (i + 1) (n - 1)
                    | QuizAttempt.Previous => Nat.pred i
                    end) start ms
  ∧ QuizAttempt.handleNextQuestion n (n - 1) = (n - 1)%nat
  ∧ QuizAttempt.handlePreviousQuestion 0 = 0%nat
  ∧ (∀ i, (i + 1 < n)%nat → QuizAttempt.handleNextQuestion n i = (i + 1)%nat)
  ∧ (∀ i, (0 < i)%nat → QuizAttempt.handlePreviousQuestion i = (i - 1)%nat).
Proof.
  intros Hstart.
  assert (Hnext : ∀ i, (i < n)%nat →
            QuizAttempt.handleNextQuestion n i = Nat.min (i + 1) (n - 1)).
  { intros i Hi. unfold QuizAttempt.handleNextQuestion.
    destruct (Z.ltb_spec (Z.of_nat i) (Z.of_nat n - 1)); lia. }
  assert (Hprevious : ∀ i, QuizAttempt.handlePreviousQuestion i = Nat.pred i).
  { intros i. unfold QuizAttempt.handlePreviousQuestion.
    destruct (Nat.ltb_spec 0 i); lia. }
  assert (Hmoves : ∀ ms0 start0, (start0 < n)%nat →
            (QuizAttempt.moves n ms0 start0 < n)%nat
            ∧ QuizAttempt.moves n ms0 start0
              = foldl (λ i m, match m with
                              | QuizAttempt.Next => Nat.min (i + 1) (n - 1)
                              | QuizAttempt.Previous => Nat.pred i
                              end) start0 ms0).
  { unfold QuizAttempt.moves.
    induction ms0 as [|m ms0 IH]; intros start0 Hstart0; [split; [exact Hstart0|reflexivity]|].
    simpl. destruct m; simpl.
    - rewrite (Hnext _ Hstart0). apply IH. lia.
    - rewrite Hprevious. apply IH. lia. }
  destruct (Hmoves ms start Hstart) as [Hrange Hspec].
  split; [exact Hrange|]. split; [exact Hspec|].
  split; [rewrite Hnext by lia; lia|].
  split; [reflexivity|].
  split.
  - intros i Hi. rewrite Hnext by lia. lia.
  - intros i Hi. rewrite Hprevious. lia.
Qed.

Lemma question_index_stays_in_range_witness :
  (QuizAttempt.moves 3
     [QuizAttempt.Next; QuizAttempt.Next; QuizAttempt.Next; QuizAttempt.Previous] 0 < 3)%nat
  ∧ QuizAttempt.moves 3
      [QuizAttempt.Next; QuizAttempt.Next; QuizAttempt.Next; QuizAttempt.Previous] 0
    = 1%nat.
Proof.
  destruct (question_index_stays_in_range 3
              [QuizAttempt.Next; QuizAttempt.Next; QuizAttempt.Next; QuizAttempt.Previous] 0)
    as (Hrange & Hspec & _); [lia|].
  split; [exact Hrange|]. rewrite Hspec. reflexivity.
Defined.

(** ** Submitting an empty question set *)

(** C9, as the code has it: grading an empty question set raises nothing;
    it yields an empty per-question record and the score 0/0, which is
    NaN (not a finite number, hence not a zero score either), and the
    empty set is the only one whose score is NaN. The submission then goes
    on like any other: the request interceptor returns the post to
    [/quizzes/practice/attempt] whose body is that attempt, the transport
    is called with it, and the handler's [catch] block runs only when the
    transport rejects the request. *)
Theorem grade_empty_set_is_NaN
    (env : Env) (d : Dashboard) (w : World)
    (quiz : list Question.t) (answers : gmap nat string) :
  let empty_attempt :=
    {| Attempt.quiz_type := "practice"; Attempt.score := NaN; Attempt.questions := [] |} in
  grade [] answers = empty_attempt
  ∧ (Attempt.score (grade quiz answers) = NaN ↔ quiz = [])
  ∧ (isSubmittingQuiz d = false →
     generatedContent d = Some (ContentQuestions []) →
     ∃ config' w1 d' w',
       request_onFulfilled env
         {| url := "/quizzes/practice/attempt"; method := "post";
            headers := default_headers; body := Some empty_attempt |} w
       = (Return config', w1)
       ∧ url config' = "/quizzes/practice/attempt"
       ∧ method config' = "post"
       ∧ body config' = Some empty_attempt
       ∧ handleQuizSubmit env (d, w) = (Return tt, (d', w'))
       ∧ match axios_dispatch env config' (clock w1) with
         | Return response =>
             quizSubmitted d' = true
             ∧ quizResults d'
               = Some {| QuizResults.id := data response !! "attempt_id";
                         QuizResults.score := NaN;
                         QuizResults.questions := [] |}
             ∧ error d' = error d
         | Throw _ =>
             quizSubmitted d' = quizSubmitted d
             ∧ quizResults d' = quizResults d
             ∧ error d' = "Failed to submit quiz. Please try again."
         end).
Proof.
  intros empty_attempt. split; [reflexivity|]. split.
  { split.
    - rewrite grade_unfold. simpl.
      destruct quiz as [|q rest]; [reflexivity|]. simpl. discriminate.
    - intros ->. reflexivity. }
  intros Hidle Hcontent.
  set (config := {| url := "/quizzes/practice/attempt"; method := "post";
                    headers := default_headers; body := Some empty_attempt |}).
  destruct (request_attach_token_never_throws env (config, w)) as ([] & [config' w1] & Hbody).
  pose proof (request_onFulfilled_run env config w _ config' w1 Hbody) as Hrun.
  destruct (request_attach_token_config_frame env _ _ _ Hbody) as (Hurl & Hmethod & Hpayload & _).
  simpl in Hrun, Hurl, Hmethod, Hpayload.
  pose proof (api_request_run env config w config' w1 Hrun) as Hpost.
  exists config', w1.
  unfold handleQuizSubmit. js_unfold. simpl. simpl in Hpost.
  rewrite Hidle, Hcontent. simpl.
  match goal with |- context [api_post env ?p ?a w] =>
    change (api_post env p a w) with (api_request env config w)
  end.
  rewrite Hpost.
  destruct (axios_dispatch env config' (clock w1)) as [response|e]; simpl.
  - eexists _, _. repeat split; try assumption.
  - destruct (response_onRejected_never_returns env e (with_tick w1)) as (e' & w2 & Hrej).
    rewrite Hrej. simpl.
    eexists _, _. repeat split; try assumption.
Qed.

Lemma grade_empty_set_is_NaN_witness :
  ∃ config' w1 d' w',
    request_onFulfilled Scenario.env_accepts_empty_attempt_only
      {| url := "/quizzes/practice/attempt"; method := "post";
         headers := default_headers;
         body := Some {| Attempt.quiz_type := "practice"; Attempt.score := NaN;
                         Attempt.questions := [] |} |}
      Sample.world_signed_in
    = (Return config', w1)
    ∧ body config'
      = Some {| Attempt.quiz_type := "practice"; Attempt.score := NaN;
                Attempt.questions := [] |}
    ∧ handleQuizSubmit Scenario.env_accepts_empty_attempt_only
        (Sample.dashboard_with [] ∅, Sample.world_signed_in)
      = (Return tt, (d', w')).
Proof.
  destruct (grade_empty_set_is_NaN Scenario.env_accepts_empty_attempt_only
              (Sample.dashboard_with [] ∅) Sample.world_signed_in [] ∅)
    as (_ & _ & Hsubmit).
  destruct (Hsubmit eq_refl eq_refl)
    as (config' & w1 & d' & w' & Hrun & _ & _ & Hpayload & Hsubmitted & _).
  exists config', w1, d', w'. split; [exact Hrun|]. split; [exact Hpayload|exact Hsubmitted].
Defined.

(** C9 fails: submitting an empty question set runs to completion. The
    backend of this run accepts nothing but the attempt with no questions
    and a NaN score, and the submission is recorded: that attempt is what
    was computed and sent. The handler's [catch] block is not entered (no
    error message is set and nothing is logged). *)
Lemma empty_quiz_submit_raises_nothing :
  let '(r, (d, w)) :=
    handleQuizSubmit Scenario.env_accepts_empty_attempt_only
      (Sample.dashboard_with [] ∅, Sample.world_signed_in) in
  r = Return tt
  ∧ quizSubmitted d = true
  ∧ quizResults d = Some {| QuizResults.id := Some "a1";
                            QuizResults.score := NaN;
                            QuizResults.questions := [] |}
  ∧ error d = ""
  ∧ console w = [].
Proof. vm_compute. repeat split. Qed.
